(** * UIImage: the image element of pygame_gui

    A shallow embedding of [pygame_gui/elements/ui_image.py].  The element
    keeps a displayed surface scaled to its rectangle and, once a size
    mismatch has been seen, an original surface that every later rescale
    starts from.

    The two pygame routines the element calls ([Surface.convert_alpha] and
    [pygame.transform.smoothscale]) are section variables; what is assumed
    about them is stated as section hypotheses, one by one, and each theorem
    depends only on the hypotheses it uses; that [smoothscale] refuses a
    [None] source and a negative size is written into the model.  The base
    widget [UIElement] and
    [premul_alpha_surface] live in [pygame_gui.core], outside
    [ui_image.py]; they are modelled from the specification and marked as
    such.

    Sizes and dimensions are pairs of integers; a rectangle may have a
    negative side, a surface may not.  Surfaces are values: the element
    never writes into a surface it has stored, and [convert_alpha] hands
    back a surface of its own, so sharing between the attributes is not
    observable. *)

From Stdlib Require Import ZArith List Bool Lia.
Import ListNotations.
Local Open Scope Z_scope.

(** ** pygame values *)

(** An RGBA colour, one integer per channel. *)
Record Color : Type := mkColor
  { red : Z; green : Z; blue : Z; alpha : Z }.

(** A [pygame.Surface]: pixel dimensions and the pixels, row by row.  A
    surface has no negative dimension, so the two are naturals;
    [get_width], [get_height] and [get_size] hand them out as integers. *)
Record Surface : Type := mkSurface
  { surf_width : N; surf_height : N; surf_pixels : list Color }.

Definition get_width (s : Surface) : Z := Z.of_N (surf_width s).
Definition get_height (s : Surface) : Z := Z.of_N (surf_height s).
Definition get_size (s : Surface) : Z * Z := (get_width s, get_height s).

(** A [pygame.Rect]; [rect_size] is its [size] attribute. *)
Record Rect : Type := mkRect
  { rect_x : Z; rect_y : Z; rect_width : Z; rect_height : Z }.

Definition rect_size (r : Rect) : Z * Z := (rect_width r, rect_height r).

(** Tuple comparison of two sizes, as [==] on Python pairs of ints. *)
Definition size_eqb (a b : Z * Z) : bool :=
  (fst a =? fst b) && (snd a =? snd b).

(** 8-bit channels, the range of a 32-bit RGBA surface. *)
Definition channel8 (c : Z) : bool := (0 <=? c) && (c <=? 255).

Definition rgba8_color (c : Color) : bool :=
  channel8 (red c) && channel8 (green c) && channel8 (blue c) && channel8 (alpha c).

Definition rgba8 (s : Surface) : bool := forallb rgba8_color (surf_pixels s).

(** A colour is in premultiplied form when no colour channel exceeds alpha. *)
Definition premultiplied_color (c : Color) : bool :=
  (red c <=? alpha c) && (green c <=? alpha c) && (blue c <=? alpha c).

Definition premultiplied (s : Surface) : bool :=
  forallb premultiplied_color (surf_pixels s).

Definition positive_size (d : Z * Z) : Prop := 0 < fst d /\ 0 < snd d.

(** The sizes [pygame.transform.smoothscale] refuses: a negative width or a
    negative height. *)
Definition negative_size (d : Z * Z) : bool := (fst d <? 0) || (snd d <? 0).

(** ** The element's attributes

    [rect], [image] and [_pre_clipped_image] are attributes of the base
    widget; [original_image] is added by [UIImage].  An attribute holding
    [None] is [None] here. *)
Record UIImage : Type := mkUIImage
  { rect : Rect;
    image : option Surface;
    _pre_clipped_image : option Surface;
    original_image : option Surface }.

Definition with_rect (r : Rect) (o : UIImage) : UIImage :=
  {| rect := r; image := image o;
     _pre_clipped_image := _pre_clipped_image o;
     original_image := original_image o |}.

Definition with_image (i : option Surface) (o : UIImage) : UIImage :=
  {| rect := rect o; image := i;
     _pre_clipped_image := _pre_clipped_image o;
     original_image := original_image o |}.

Definition with_original_image (i : option Surface) (o : UIImage) : UIImage :=
  {| rect := rect o; image := image o;
     _pre_clipped_image := _pre_clipped_image o;
     original_image := i |}.

(** ** Effects

    A method mutates [self] and may raise.  Mutations made before a raise
    stay, so the state is returned on both outcomes.  Next to the object the
    machine keeps the list of rescales requested from pygame, source and
    target size, oldest first; a request that pygame refuses is on the list
    as well. *)
Inductive exn : Type := AttributeError | TypeError | ValueError.

Record Machine : Type := mkMachine
  { self : UIImage;
    rescales : list (Surface * (Z * Z)) }.

Definition M (A : Type) : Type := Machine -> (exn + A) * Machine.

Definition ret {A : Type} (a : A) : M A := fun m => (inr a, m).

Definition bind {A B : Type} (c : M A) (k : A -> M B) : M B :=
  fun m => match c m with
           | (inl e, m') => (inl e, m')
           | (inr a, m') => k a m'
           end.

Definition raise {A : Type} (e : exn) : M A := fun m => (inl e, m).

Definition get_self : M UIImage := fun m => (inr (self m), m).

Definition set_attr (f : UIImage -> UIImage) : M unit :=
  fun m => (inr tt, {| self := f (self m); rescales := rescales m |}).

Declare Scope py_scope.
Delimit Scope py_scope with py.
Notation "x <- c ;; k" := (bind c (fun x => k))
  (at level 61, c at next level, right associativity) : py_scope.
Notation "c ;; k" := (bind c (fun _ => k))
  (at level 61, right associativity) : py_scope.
Local Open Scope py_scope.

(** Calling a method on a value that may be [None]. *)
Definition attr_of {A : Type} (v : option A) : M A :=
  match v with
  | Some a => ret a
  | None => raise AttributeError
  end.

(** ** The base widget and the premultiply helper *)

(** Modelled from the spec: [UIElement.__init__] is defined in
    [pygame_gui.core], not in [ui_image.py].  The spec has the base widget
    own the rectangle, with no bitmap displayed before the first
    replace-image and a pre-clip slot that may be unset. *)
Definition UIElement_init (relative_rect : Rect) : UIImage :=
  {| rect := relative_rect; image := None;
     _pre_clipped_image := None; original_image := None |}.

(** A rectangle given a new size; its position stays. *)
Definition with_size (dimensions : Z * Z) (r : Rect) : Rect :=
  {| rect_x := rect_x r; rect_y := rect_y r;
     rect_width := fst dimensions; rect_height := snd dimensions |}.

(** Modelled from the spec: [UIElement.set_dimensions] is defined in
    [pygame_gui.core], not in [ui_image.py].  The spec says of it only that
    it "updates the rectangle": the rectangle's size becomes the requested
    one. *)
Definition UIElement_set_dimensions (dimensions : Z * Z) : M unit :=
  set_attr (fun o => with_rect (with_size dimensions (rect o)) o).

(** Modelled from the spec: [UIElement._set_image] is defined in
    [pygame_gui.core], not in [ui_image.py].  In the spec the bitmap handed
    over "becomes the displayed bitmap", and the pre-clip slot is read-only
    for this element. *)
Definition _set_image (new_image : Surface) : M unit :=
  set_attr (with_image (Some new_image)).

(** One pixel of [premul_alpha_surface]: (R,G,B,A) becomes (R*A/255,
    G*A/255, B*A/255, A), the integer division rounding down. *)
Definition premul_color (c : Color) : Color :=
  {| red := red c * alpha c / 255;
     green := green c * alpha c / 255;
     blue := blue c * alpha c / 255;
     alpha := alpha c |}.

(** Modelled from the spec: [premul_alpha_surface] is defined in
    [pygame_gui.core.utility], not in [ui_image.py].  Every pixel (R,G,B,A)
    becomes (R*A/255, G*A/255, B*A/255, A); the size stays. *)
Definition premul_alpha_surface (s : Surface) : Surface :=
  {| surf_width := surf_width s; surf_height := surf_height s;
     surf_pixels := map premul_color (surf_pixels s) |}.

(** ** Calls a client makes

    The two mutators of the element, with their arguments. *)
Inductive mutator : Type :=
| SetImage (new_image : option Surface) (image_is_alpha_premultiplied : bool)
| SetDimensions (dimensions : Z * Z).

(** ** A small pygame to run the model on

    Executable stand-ins for the two pygame routines: a conversion that
    clamps every channel to 8 bits, and a nearest-neighbour resampler.  They
    serve to evaluate the model on concrete surfaces. *)
Module Sample.

Definition clamp8 (c : Z) : Z := Z.max 0 (Z.min 255 c).

Definition clamp_color (c : Color) : Color :=
  {| red := clamp8 (red c); green := clamp8 (green c);
     blue := clamp8 (blue c); alpha := clamp8 (alpha c) |}.

Definition convert_alpha (s : Surface) : Surface :=
  {| surf_width := surf_width s; surf_height := surf_height s;
     surf_pixels := map clamp_color (surf_pixels s) |}.

Definition transparent : Color := mkColor 0 0 0 0.

Definition get_at (s : Surface) (x y : Z) : Color :=
  nth (Z.to_nat (y * get_width s + x)) (surf_pixels s) transparent.

Definition coords (n : Z) : list Z := map Z.of_nat (seq 0 (Z.to_nat n)).

Definition nearest_scale (s : Surface) (size : Z * Z) : Surface :=
  {| surf_width := Z.to_N (fst size); surf_height := Z.to_N (snd size);
     surf_pixels :=
       flat_map
         (fun y => map (fun x => get_at s (x * get_width s / fst size)
                                         (y * get_height s / snd size))
                       (coords (fst size)))
         (coords (snd size)) |}.

(** A surface of one colour. *)
Definition solid (w h : Z) (c : Color) : Surface :=
  {| surf_width := Z.to_N w; surf_height := Z.to_N h;
     surf_pixels := repeat c (Z.to_nat (w * h)) |}.

(** Straight-alpha half-transparent red, and its premultiplied form. *)
Definition straight_red : Color := mkColor 255 0 0 128.
Definition premul_red : Color := mkColor 128 0 0 128.

Definition at_origin (w h : Z) : Rect := mkRect 0 0 w h.

(** An element showing a premultiplied [w] x [h] bitmap in a rectangle of
    the same size, nothing else recorded. *)
Definition showing (w h : Z) : Machine :=
  {| self := {| rect := at_origin w h;
                image := Some (solid w h premul_red);
                _pre_clipped_image := None;
                original_image := None |};
     rescales := [] |}.

(** An element given a premultiplied [2w] x [2h] bitmap in a [w] x [h]
    rectangle: the bitmap is the original, its reduction is displayed. *)
Definition shrunk (w h : Z) : Machine :=
  {| self := {| rect := at_origin w h;
                image := Some (nearest_scale (solid (2 * w) (2 * h) premul_red)
                                             (w, h));
                _pre_clipped_image := None;
                original_image := Some (solid (2 * w) (2 * h) premul_red) |};
     rescales := [(solid (2 * w) (2 * h) premul_red, (w, h))] |}.

(** An element showing a 2x2 bitmap, with a 3x3 pre-clipped image on
    record and no original yet. *)
Definition clipped : Machine :=
  {| self := {| rect := at_origin 2 2;
                image := Some (solid 2 2 premul_red);
                _pre_clipped_image := Some (solid 3 3 straight_red);
                original_image := None |};
     rescales := [] |}.

(** A client's calls: a straight-alpha bitmap of another size, a resize,
    a [None] bitmap, the same resize again, a premultiplied bitmap that
    fits. *)
Definition script : list mutator :=
  [ SetImage (Some (solid 4 4 straight_red)) false;
    SetDimensions (3, 3);
    SetImage None true;
    SetDimensions (3, 3);
    SetImage (Some (solid 3 3 premul_red)) true ].

(** Calls outside the contract in two ways: a straight-alpha bitmap
    announced as premultiplied, and a [None] bitmap; the resizes are to
    positive sizes. *)
Definition unchecked_script : list mutator :=
  [ SetImage (Some (solid 3 3 straight_red)) true;
    SetDimensions (2, 2);
    SetImage None false;
    SetImage (Some (solid 2 2 straight_red)) true;
    SetDimensions (5, 4) ].

End Sample.

(** ** The methods of UIImage *)

Section UIImage.

(** [Surface.convert_alpha] and [pygame.transform.smoothscale]. *)
Variable convert_alpha : Surface -> Surface.
Variable smoothscale : Surface -> Z * Z -> Surface.

(** [pygame.transform.smoothscale(source, size)]: rejects [None] as a
    source with [TypeError] and a negative width or height with
    [ValueError]; a request with a surface is put on the machine's list of
    rescales, refused or not. *)
Definition transform_smoothscale (source : option Surface) (size : Z * Z)
  : M Surface :=
  match source with
  | None => raise TypeError
  | Some s =>
      fun m =>
        let requested := {| self := self m;
                            rescales := rescales m ++ [(s, size)] |} in
        if negative_size size then (inl ValueError, requested)
        else (inr (smoothscale s size), requested)
  end.

(** [UIImage.set_dimensions]: the base resize, then, if the rectangle's
    size is not the displayed image's, capture an original if there is
    none and display the original scaled to the rectangle. *)
Definition set_dimensions (dimensions : Z * Z) : M unit :=
  UIElement_set_dimensions dimensions ;;
  o <- get_self ;;
  displayed <- attr_of (image o) ;;
  if negb (size_eqb (rect_size (rect o)) (get_size displayed)) then
    match original_image o with
    | None =>
        match _pre_clipped_image o with
        | Some pre => set_attr (with_original_image (Some pre))
        | None => set_attr (with_original_image (image o))
        end
    | Some _ => ret tt
    end ;;
    o <- get_self ;;
    scaled <- transform_smoothscale (original_image o) (rect_size (rect o)) ;;
    _set_image scaled
  else ret tt.

(** [UIImage.set_image]: convert, premultiply unless told the image is
    premultiplied already, then either keep the result as the original and
    display it scaled to the rectangle, or display it as it is. *)
Definition set_image (new_image : option Surface)
           (image_is_alpha_premultiplied : bool) : M unit :=
  unconverted <- attr_of new_image ;;
  let image_surface := convert_alpha unconverted in
  let image_surface :=
    if negb image_is_alpha_premultiplied
    then premul_alpha_surface image_surface
    else image_surface in
  o <- get_self ;;
  if negb (get_width image_surface =? rect_width (rect o))
     || negb (get_height image_surface =? rect_height (rect o)) then
    set_attr (with_original_image (Some image_surface)) ;;
    o <- get_self ;;
    scaled <- transform_smoothscale (original_image o) (rect_size (rect o)) ;;
    _set_image scaled
  else _set_image image_surface.

(** The constructor, run on a fresh object with no rescale requested yet:
    base initialisation, [original_image = None], then [set_image]. *)
Definition __init__ (relative_rect : Rect) (image_surface : option Surface)
           (image_is_alpha_premultiplied : bool) : (exn + unit) * Machine :=
  (set_attr (with_original_image None) ;;
   set_image image_surface image_is_alpha_premultiplied)
    {| self := UIElement_init relative_rect; rescales := [] |}.

(** *** Call sequences

    A client calls the two mutators one after the other; a call that raises
    leaves the object as it is at the raise, and the client goes on.
    [session] lists the outcome and the machine after each call. *)
Definition call (c : mutator) : M unit :=
  match c with
  | SetImage new_image flag => set_image new_image flag
  | SetDimensions dimensions => set_dimensions dimensions
  end.

Fixpoint session (cs : list mutator) (m : Machine)
  : list ((exn + unit) * Machine) :=
  match cs with
  | [] => []
  | c :: cs' => call c m :: session cs' (snd (call c m))
  end.

(** The machine after the whole sequence. *)
Definition after (cs : list mutator) (m : Machine) : Machine :=
  fold_left (fun m' c => snd (call c m')) cs m.

(** *** What the methods compute *)

(** The bitmap [set_image] works with after conversion. *)
Definition converted (new_image : Surface) (flag : bool) : Surface :=
  if negb flag then premul_alpha_surface (convert_alpha new_image)
  else convert_alpha new_image.

(** The test of [set_image]: width or height differs from the rectangle's. *)
Definition differs (s : Surface) (r : Rect) : bool :=
  negb (get_width s =? rect_width r) || negb (get_height s =? rect_height r).

(** The bitmap a resize scales from: the original when there is one, else
    the pre-clipped image when there is one, else the displayed image. *)
Definition resize_source (o : UIImage) (displayed : Surface) : Surface :=
  match original_image o with
  | Some orig => orig
  | None =>
      match _pre_clipped_image o with
      | Some pre => pre
      | None => displayed
      end
  end.

(** Where [set_image] keeps the converted bitmap [c]: as the original when
    its size differs from the rectangle's, as the displayed image when not. *)
Definition kept (r : Rect) (c : Surface) (o : UIImage) : option Surface :=
  if differs c r then original_image o else image o.

(** [dst] is (R*A/255, G*A/255, B*A/255, A) for [src] = (R,G,B,A), each
    quotient within one unit below the exact value. *)
Definition within_rounding (src dst : Color) : Prop :=
  alpha dst = alpha src /\
  255 * red dst <= red src * alpha src < 255 * red dst + 255 /\
  255 * green dst <= green src * alpha src < 255 * green dst + 255 /\
  255 * blue dst <= blue src * alpha src < 255 * blue dst + 255.

Definition premultiplied_opt (s : option Surface) : bool :=
  match s with
  | Some x => premultiplied x
  | None => true
  end.

(** The invariant on the displayed bitmap: there is one, it has the
    rectangle's size, and it is premultiplied. *)
Definition displayed_fits (o : UIImage) : Prop :=
  exists shown,
    image o = Some shown /\
    get_size shown = rect_size (rect o) /\
    premultiplied shown = true.

(** What the toolkit keeps around it: a rectangle of positive size and only
    premultiplied bitmaps in the pre-clip slot and as the original. *)
Definition well_kept (o : UIImage) : Prop :=
  positive_size (rect_size (rect o)) /\
  premultiplied_opt (_pre_clipped_image o) = true /\
  premultiplied_opt (original_image o) = true.

(** A call within the contract of the two mutators: a bitmap announced as
    premultiplied is premultiplied, and a resize is to a positive size. *)
Definition admissible (c : mutator) : Prop :=
  match c with
  | SetImage (Some b) true => premultiplied (convert_alpha b) = true
  | SetImage _ _ => True
  | SetDimensions d => positive_size d
  end.

(** The size half of [displayed_fits]: there is a displayed bitmap and it
    has the rectangle's size. *)
Definition displayed_sized (o : UIImage) : Prop :=
  exists shown,
    image o = Some shown /\ get_size shown = rect_size (rect o).

(** A call whose resize, if it is one, is to a positive size. *)
Definition sized (c : mutator) : Prop :=
  match c with
  | SetImage _ _ => True
  | SetDimensions d => positive_size d
  end.

(** *** Equations of the two methods *)

Lemma size_eqb_eq (a b : Z * Z) : size_eqb a b = true <-> a = b.
Proof.
  destruct a as [aw ah], b as [bw bh]; unfold size_eqb; simpl.
  rewrite andb_true_iff, !Z.eqb_eq.
  split; [intros [-> ->]; reflexivity | intros E; inversion E; auto].
Qed.

Lemma size_eqb_neq (a b : Z * Z) : size_eqb a b = false <-> a <> b.
Proof.
  rewrite <- size_eqb_eq. destruct (size_eqb a b); split; congruence.
Qed.

Lemma differs_size (s : Surface) (r : Rect) :
  differs s r = negb (size_eqb (get_size s) (rect_size r)).
Proof.
  unfold differs, size_eqb, get_size, rect_size, get_width, get_height; simpl.
  now rewrite negb_andb.
Qed.

Lemma rect_size_with_size (d : Z * Z) (r : Rect) :
  rect_size (with_size d r) = d.
Proof. destruct d; reflexivity. Qed.

Lemma set_image_none (flag : bool) (m : Machine) :
  set_image None flag m = (inl AttributeError, m).
Proof. reflexivity. Qed.

Lemma set_image_fits (b : Surface) (flag : bool) (m : Machine) :
  differs (converted b flag) (rect (self m)) = false ->
  set_image (Some b) flag m =
  (inr tt, {| self := with_image (Some (converted b flag)) (self m);
              rescales := rescales m |}).
Proof.
  intros D. unfold set_image, bind, attr_of, ret, get_self; simpl.
  fold (converted b flag). fold (differs (converted b flag) (rect (self m))).
  rewrite D. reflexivity.
Qed.

Lemma positive_not_negative (d : Z * Z) :
  positive_size d -> negative_size d = false.
Proof.
  unfold positive_size, negative_size. intros [W H].
  apply orb_false_iff. rewrite !Z.ltb_ge. lia.
Qed.

Lemma get_size_not_negative (s : Surface) : negative_size (get_size s) = false.
Proof.
  unfold negative_size, get_size, get_width, get_height; simpl.
  apply orb_false_iff. rewrite !Z.ltb_ge. lia.
Qed.

Lemma set_image_scales (b : Surface) (flag : bool) (m : Machine) :
  differs (converted b flag) (rect (self m)) = true ->
  negative_size (rect_size (rect (self m))) = false ->
  set_image (Some b) flag m =
  (inr tt,
   {| self := with_image
                (Some (smoothscale (converted b flag) (rect_size (rect (self m)))))
                (with_original_image (Some (converted b flag)) (self m));
      rescales := rescales m
                    ++ [(converted b flag, rect_size (rect (self m)))] |}).
Proof.
  intros D G. unfold set_image, bind, attr_of, ret, get_self; simpl.
  fold (converted b flag). fold (differs (converted b flag) (rect (self m))).
  rewrite D. simpl. rewrite G. reflexivity.
Qed.

Lemma set_image_refused (b : Surface) (flag : bool) (m : Machine) :
  differs (converted b flag) (rect (self m)) = true ->
  negative_size (rect_size (rect (self m))) = true ->
  set_image (Some b) flag m =
  (inl ValueError,
   {| self := with_original_image (Some (converted b flag)) (self m);
      rescales := rescales m
                    ++ [(converted b flag, rect_size (rect (self m)))] |}).
Proof.
  intros D G. unfold set_image, bind, attr_of, ret, get_self; simpl.
  fold (converted b flag). fold (differs (converted b flag) (rect (self m))).
  rewrite D. simpl. rewrite G. reflexivity.
Qed.

Lemma set_dimensions_no_image (d : Z * Z) (m : Machine) :
  image (self m) = None ->
  set_dimensions d m =
  (inl AttributeError,
   {| self := with_rect (with_size d (rect (self m))) (self m);
      rescales := rescales m |}).
Proof.
  intros I. unfold set_dimensions, bind, UIElement_set_dimensions, set_attr,
    get_self, attr_of; simpl.
  rewrite I. reflexivity.
Qed.

Lemma set_dimensions_same (d : Z * Z) (m : Machine) (displayed : Surface) :
  image (self m) = Some displayed ->
  get_size displayed = d ->
  set_dimensions d m =
  (inr tt, {| self := with_rect (with_size d (rect (self m))) (self m);
              rescales := rescales m |}).
Proof.
  intros I E. unfold set_dimensions, bind, UIElement_set_dimensions, set_attr,
    get_self, attr_of, ret; simpl.
  rewrite I, rect_size_with_size.
  assert (T : size_eqb d (get_size displayed) = true)
    by (apply size_eqb_eq; congruence).
  rewrite T. reflexivity.
Qed.

Lemma set_dimensions_request (d : Z * Z) (m : Machine) (displayed : Surface) :
  image (self m) = Some displayed ->
  get_size displayed <> d ->
  set_dimensions d m =
  bind (transform_smoothscale (Some (resize_source (self m) displayed)) d)
       _set_image
       {| self := with_original_image
                    (Some (resize_source (self m) displayed))
                    (with_rect (with_size d (rect (self m))) (self m));
          rescales := rescales m |}.
Proof.
  intros I E. unfold set_dimensions, bind, UIElement_set_dimensions, set_attr,
    get_self, attr_of, ret; simpl.
  rewrite I, rect_size_with_size.
  assert (F : size_eqb d (get_size displayed) = false)
    by (apply size_eqb_neq; congruence).
  rewrite F. unfold resize_source; simpl.
  destruct (original_image (self m)) as [orig|] eqn:O; simpl;
    [| destruct (_pre_clipped_image (self m)) as [pre|] eqn:P; simpl];
    rewrite ?O, ?I; simpl; rewrite ?rect_size_with_size;
    unfold with_original_image, with_rect; simpl; rewrite ?O, ?I, ?P;
    reflexivity.
Qed.

Lemma set_dimensions_rescales (d : Z * Z) (m : Machine) (displayed : Surface) :
  image (self m) = Some displayed ->
  get_size displayed <> d ->
  negative_size d = false ->
  set_dimensions d m =
  (inr tt,
   {| self := {| rect := with_size d (rect (self m));
                 image := Some (smoothscale (resize_source (self m) displayed) d);
                 _pre_clipped_image := _pre_clipped_image (self m);
                 original_image := Some (resize_source (self m) displayed) |};
      rescales := rescales m ++ [(resize_source (self m) displayed, d)] |}).
Proof.
  intros I E G. rewrite (set_dimensions_request _ _ _ I E).
  unfold bind, transform_smoothscale. rewrite G. reflexivity.
Qed.

Lemma set_dimensions_refused (d : Z * Z) (m : Machine) (displayed : Surface) :
  image (self m) = Some displayed ->
  get_size displayed <> d ->
  negative_size d = true ->
  set_dimensions d m =
  (inl ValueError,
   {| self := {| rect := with_size d (rect (self m));
                 image := Some displayed;
                 _pre_clipped_image := _pre_clipped_image (self m);
                 original_image := Some (resize_source (self m) displayed) |};
      rescales := rescales m ++ [(resize_source (self m) displayed, d)] |}).
Proof.
  intros I E G. rewrite (set_dimensions_request _ _ _ I E).
  unfold bind, transform_smoothscale. rewrite G.
  unfold with_original_image, with_rect; simpl. rewrite I. reflexivity.
Qed.

Lemma differs_true (s : Surface) (r : Rect) :
  differs s r = true <-> get_size s <> rect_size r.
Proof.
  rewrite differs_size, negb_true_iff. apply size_eqb_neq.
Qed.

Lemma differs_false (s : Surface) (r : Rect) :
  differs s r = false <-> get_size s = rect_size r.
Proof.
  rewrite differs_size, negb_false_iff. apply size_eqb_eq.
Qed.

(** The outcomes of a resize, by what is displayed and the size asked. *)
Lemma set_dimensions_cases (d : Z * Z) (m : Machine) :
  (image (self m) = None /\
   set_dimensions d m =
   (inl AttributeError,
    {| self := with_rect (with_size d (rect (self m))) (self m);
       rescales := rescales m |}))
  \/
  (exists displayed,
      image (self m) = Some displayed /\ get_size displayed = d /\
      set_dimensions d m =
      (inr tt, {| self := with_rect (with_size d (rect (self m))) (self m);
                  rescales := rescales m |}))
  \/
  (exists displayed,
      image (self m) = Some displayed /\ get_size displayed <> d /\
      negative_size d = false /\
      set_dimensions d m =
      (inr tt,
       {| self := {| rect := with_size d (rect (self m));
                     image := Some (smoothscale
                                      (resize_source (self m) displayed) d);
                     _pre_clipped_image := _pre_clipped_image (self m);
                     original_image :=
                       Some (resize_source (self m) displayed) |};
          rescales := rescales m
                        ++ [(resize_source (self m) displayed, d)] |}))
  \/
  (exists displayed,
      image (self m) = Some displayed /\ get_size displayed <> d /\
      negative_size d = true /\
      set_dimensions d m =
      (inl ValueError,
       {| self := {| rect := with_size d (rect (self m));
                     image := Some displayed;
                     _pre_clipped_image := _pre_clipped_image (self m);
                     original_image :=
                       Some (resize_source (self m) displayed) |};
          rescales := rescales m
                        ++ [(resize_source (self m) displayed, d)] |})).
Proof.
  destruct (image (self m)) as [displayed|] eqn:I.
  - right. destruct (size_eqb (get_size displayed) d) eqn:T.
    + apply size_eqb_eq in T. left. exists displayed.
      split; [reflexivity|]. split; [exact T|].
      apply (set_dimensions_same _ _ _ I T).
    + apply size_eqb_neq in T. right.
      destruct (negative_size d) eqn:G; [right|left]; exists displayed;
        (split; [reflexivity|]); (split; [exact T|]);
        (split; [reflexivity|]).
      * apply (set_dimensions_refused _ _ _ I T G).
      * apply (set_dimensions_rescales _ _ _ I T G).
  - left. split; [reflexivity|]. apply (set_dimensions_no_image _ _ I).
Qed.

(** The outcomes of a replacement, by the bitmap given and the rectangle. *)
Lemma set_image_cases (new_image : option Surface) (flag : bool) (m : Machine) :
  (new_image = None /\ set_image new_image flag m = (inl AttributeError, m))
  \/
  (exists b,
      new_image = Some b /\
      get_size (converted b flag) = rect_size (rect (self m)) /\
      set_image new_image flag m =
      (inr tt, {| self := with_image (Some (converted b flag)) (self m);
                  rescales := rescales m |}))
  \/
  (exists b,
      new_image = Some b /\
      get_size (converted b flag) <> rect_size (rect (self m)) /\
      negative_size (rect_size (rect (self m))) = false /\
      set_image new_image flag m =
      (inr tt,
       {| self := with_image
                    (Some (smoothscale (converted b flag)
                                       (rect_size (rect (self m)))))
                    (with_original_image (Some (converted b flag)) (self m));
          rescales := rescales m
                        ++ [(converted b flag,
                             rect_size (rect (self m)))] |}))
  \/
  (exists b,
      new_image = Some b /\
      get_size (converted b flag) <> rect_size (rect (self m)) /\
      negative_size (rect_size (rect (self m))) = true /\
      set_image new_image flag m =
      (inl ValueError,
       {| self := with_original_image (Some (converted b flag)) (self m);
          rescales := rescales m
                        ++ [(converted b flag,
                             rect_size (rect (self m)))] |})).
Proof.
  destruct new_image as [b|]; [right|left; split; reflexivity].
  destruct (differs (converted b flag) (rect (self m))) eqn:D.
  - right.
    destruct (negative_size (rect_size (rect (self m)))) eqn:G;
      [right|left]; exists b; (split; [reflexivity|]);
      (split; [apply differs_true, D|]); (split; [reflexivity|]).
    + apply (set_image_refused _ _ _ D G).
    + apply (set_image_scales _ _ _ D G).
  - left. exists b. split; [reflexivity|].
    split; [apply differs_false, D | apply set_image_fits, D].
Qed.

(** A bitmap cannot fit a rectangle with a negative side. *)
Lemma fits_not_negative (s : Surface) (r : Rect) :
  get_size s = rect_size r -> negative_size (rect_size r) = false.
Proof. intros <-. apply get_size_not_negative. Qed.

(** *** What is assumed of pygame

    A converted surface has 8-bit channels; a rescale to a positive size
    returns a surface of that size; a rescale of a premultiplied surface is
    premultiplied. *)
Section Contract.

Hypothesis convert_alpha_rgba8 : forall s, rgba8 (convert_alpha s) = true.
Hypothesis smoothscale_size :
  forall s d, positive_size d -> get_size (smoothscale s d) = d.
Hypothesis smoothscale_premultiplied :
  forall s d, premultiplied s = true -> premultiplied (smoothscale s d) = true.

(** *** replace-image *)

(** C2: for a bitmap that is not [None], in a rectangle with no negative
    side (a negative one [smoothscale] refuses), [set_image] returns
    normally and leaves the rectangle alone; with [c] the bitmap after
    [convert_alpha] (and premultiplication unless the flag is set), either
    [c]'s size differs from the rectangle's size, [c] is stored as
    [original_image] and the displayed image is [smoothscale c] to the
    rectangle's size, or the sizes are equal and [c] itself is the
    displayed image. *)
Theorem C2_set_image_stores_and_scales
  (b : Surface) (flag : bool) (m : Machine) :
  negative_size (rect_size (rect (self m))) = false ->
  exists m',
    set_image (Some b) flag m = (inr tt, m') /\
    rect (self m') = rect (self m) /\
    ((get_size (converted b flag) <> rect_size (rect (self m)) /\
      original_image (self m') = Some (converted b flag) /\
      image (self m') =
        Some (smoothscale (converted b flag) (rect_size (rect (self m)))))
     \/
     (get_size (converted b flag) = rect_size (rect (self m)) /\
      image (self m') = Some (converted b flag))).
Proof.
  intros G. destruct (differs (converted b flag) (rect (self m))) eqn:D.
  - rewrite (set_image_scales _ _ _ D G). eexists; split; [reflexivity|].
    apply differs_true in D. simpl. split; [reflexivity|]. left. auto.
  - rewrite (set_image_fits _ _ _ D). eexists; split; [reflexivity|].
    apply differs_false in D. simpl. split; [reflexivity|]. right. auto.
Qed.

(** C8: when the converted bitmap has the rectangle's size, [set_image]
    leaves [original_image] as it was, whether unset or captured earlier. *)
Theorem C8_set_image_same_size_keeps_original
  (b : Surface) (flag : bool) (m : Machine) :
  get_size (converted b flag) = rect_size (rect (self m)) ->
  fst (set_image (Some b) flag m) = inr tt /\
  original_image (self (snd (set_image (Some b) flag m))) =
    original_image (self m) /\
  image (self (snd (set_image (Some b) flag m))) = Some (converted b flag).
Proof.
  intros E. apply differs_false in E.
  rewrite (set_image_fits _ _ _ E). simpl. auto.
Qed.

(** C9: [set_image None] raises [AttributeError] at the [convert_alpha]
    call, and the machine (displayed image, original image, rectangle,
    rescales requested) is exactly the one before the call. *)
Theorem C9_set_image_none_raises_unchanged (flag : bool) (m : Machine) :
  set_image None flag m = (inl AttributeError, m) /\
  original_image (self (snd (set_image None flag m))) = original_image (self m) /\
  image (self (snd (set_image None flag m))) = image (self m).
Proof. repeat split. Qed.

(** *** resize *)

(** C3: a resize to a size other than the displayed bitmap's and with no
    negative side (a negative one [smoothscale] refuses), with no original
    captured yet, returns normally; the original becomes the pre-clipped
    image when one is recorded and the displayed image otherwise, and the
    displayed image becomes [smoothscale] of that original to the new
    rectangle size, the one rescale requested. *)
Theorem C3_set_dimensions_captures_original
  (d : Z * Z) (m : Machine) (displayed : Surface) :
  image (self m) = Some displayed ->
  original_image (self m) = None ->
  get_size displayed <> d ->
  negative_size d = false ->
  exists m' source,
    set_dimensions d m = (inr tt, m') /\
    source = match _pre_clipped_image (self m) with
             | Some pre => pre
             | None => displayed
             end /\
    rect_size (rect (self m')) = d /\
    original_image (self m') = Some source /\
    image (self m') = Some (smoothscale source (rect_size (rect (self m')))) /\
    rescales m' = rescales m ++ [(source, d)].
Proof.
  intros I O E G. rewrite (set_dimensions_rescales _ _ _ I E G).
  unfold resize_source. rewrite O.
  eexists; eexists; split; [reflexivity|]. simpl.
  rewrite rect_size_with_size. repeat split.
Qed.

(** C7: a resize to the size the displayed bitmap already has returns
    normally, requests no rescale and leaves the displayed image and the
    original as they are.  And for a positive size [d] and any displayed
    bitmap, of two calls [set_dimensions d] in a row the second requests no
    rescale and leaves the displayed image unchanged, so the pair requests
    at most one. *)
Theorem C7_set_dimensions_same_size_is_noop :
  (forall d m displayed,
      image (self m) = Some displayed ->
      get_size displayed = d ->
      fst (set_dimensions d m) = inr tt /\
      image (self (snd (set_dimensions d m))) = Some displayed /\
      original_image (self (snd (set_dimensions d m))) = original_image (self m) /\
      rescales (snd (set_dimensions d m)) = rescales m)
  /\
  (forall d m displayed,
      image (self m) = Some displayed ->
      positive_size d ->
      let once := snd (set_dimensions d m) in
      let twice := snd (set_dimensions d once) in
      fst (set_dimensions d m) = inr tt /\
      fst (set_dimensions d once) = inr tt /\
      image (self twice) = image (self once) /\
      rescales twice = rescales once /\
      (length (rescales twice) <= S (length (rescales m)))%nat).
Proof.
  split.
  - intros d m displayed I E.
    rewrite (set_dimensions_same _ _ _ I E). simpl. auto.
  - intros d m displayed I P once twice.
    pose proof (positive_not_negative _ P) as G.
    assert (H1 : fst (set_dimensions d m) = inr tt /\
                 (exists shown, image (self once) = Some shown /\
                                get_size shown = d) /\
                 (length (rescales once) <= S (length (rescales m)))%nat).
    { subst once twice.
      destruct (size_eqb (get_size displayed) d) eqn:T.
      - apply size_eqb_eq in T.
        rewrite (set_dimensions_same _ _ _ I T). simpl.
        split; [reflexivity|]. split; [eauto|lia].
      - apply size_eqb_neq in T.
        rewrite (set_dimensions_rescales _ _ _ I T G). simpl.
        split; [reflexivity|]. split; [eauto|].
        rewrite length_app. simpl. lia. }
    destruct H1 as (R1 & (shown & I1 & E1) & L1).
    subst twice.
    rewrite (set_dimensions_same _ _ _ I1 E1). simpl.
    repeat split; auto.
Qed.

(** C10: from a machine whose [original_image] is set, [set_dimensions]
    leaves [original_image] exactly as it is; [set_image] either leaves it
    as it is or, for a bitmap whose converted size differs from the
    rectangle's, replaces it by that converted bitmap; and after every call
    of any sequence of the two mutators, raising or not, [original_image]
    is still set. *)
Theorem C10_original_image_stays_set (m : Machine) :
  original_image (self m) <> None ->
  (forall d,
      original_image (self (snd (set_dimensions d m))) = original_image (self m))
  /\
  (forall new_image flag,
      original_image (self (snd (set_image new_image flag m))) =
        original_image (self m)
      \/
      exists b, new_image = Some b /\
                get_size (converted b flag) <> rect_size (rect (self m)) /\
                original_image (self (snd (set_image new_image flag m))) =
                  Some (converted b flag))
  /\
  (forall cs,
      Forall (fun r => original_image (self (snd r)) <> None) (session cs m)).
Proof.
  assert (Dim : forall d m0, original_image (self m0) <> None ->
            original_image (self (snd (set_dimensions d m0))) =
            original_image (self m0)).
  { intros d m0 H0.
    destruct (set_dimensions_cases d m0)
      as [(_ & E) | [(x & _ & _ & E) | [(x & _ & _ & _ & E)
                                       | (x & _ & _ & _ & E)]]];
      rewrite E; simpl; try reflexivity; unfold resize_source;
      (destruct (original_image (self m0)); [reflexivity|contradiction]). }
  assert (Img : forall new_image flag m0,
            original_image (self (snd (set_image new_image flag m0))) =
              original_image (self m0)
            \/
            exists b, new_image = Some b /\
                      get_size (converted b flag) <> rect_size (rect (self m0)) /\
                      original_image (self (snd (set_image new_image flag m0))) =
                        Some (converted b flag)).
  { intros new_image flag m0.
    destruct (set_image_cases new_image flag m0)
      as [(_ & E) | [(b & _ & _ & E) | [(b & N & S & _ & E)
                                       | (b & N & S & _ & E)]]];
      rewrite E; simpl; [left; reflexivity | left; reflexivity | |];
      right; exists b; auto. }
  intros H. split; [auto|]. split; [auto|].
  intros cs. revert m H. induction cs as [|c cs IH]; intros m H; simpl.
  - constructor.
  - assert (H' : original_image (self (snd (call c m))) <> None).
    { destruct c as [new_image flag|d]; simpl.
      - destruct (Img new_image flag m) as [E|(b & _ & _ & E)];
          rewrite E; [assumption|discriminate].
      - now rewrite Dim. }
    constructor; [exact H'|apply IH, H'].
Qed.

(** One resize with the original set: the original stays, and a rescale,
    if one is requested, refused or not, starts from it. *)
Lemma set_dimensions_from_original (d : Z * Z) (m : Machine) (orig : Surface) :
  original_image (self m) = Some orig ->
  original_image (self (snd (set_dimensions d m))) = Some orig /\
  exists requested,
    rescales (snd (set_dimensions d m)) = rescales m ++ requested /\
    Forall (fun r => fst r = orig) requested.
Proof.
  intros O.
  destruct (set_dimensions_cases d m)
    as [(_ & E) | [(x & _ & _ & E) | [(x & _ & _ & _ & E)
                                     | (x & _ & _ & _ & E)]]];
    rewrite E; simpl.
  - split; [assumption|]. exists []. now rewrite app_nil_r.
  - split; [assumption|]. exists []. now rewrite app_nil_r.
  - unfold resize_source. rewrite O.
    split; [reflexivity|]. eexists; split; [reflexivity|].
    constructor; [reflexivity|constructor].
  - unfold resize_source. rewrite O.
    split; [reflexivity|]. eexists; split; [reflexivity|].
    constructor; [reflexivity|constructor].
Qed.

(** C4: with the original set to [orig], any sequence of resizes keeps
    [orig] as the original and every rescale it requests has [orig] as its
    source.  And resizing a displayed bitmap to a different positive size
    [d1] and then to another size [d2] with no negative side (a negative
    one [smoothscale] refuses) shows [smoothscale source d2], where
    [source] is the original the first resize found or captured; the two
    rescales requested are of [source], to [d1] and to [d2], none of the
    intermediate result (so a 100x100 original resized to 50x50 and then to
    200x200 is shown as the 200x200 smoothscale of the 100x100 original). *)
Theorem C4_rescale_starts_from_original :
  (forall m orig ds,
      original_image (self m) = Some orig ->
      original_image (self (after (map SetDimensions ds) m)) = Some orig /\
      exists requested,
        rescales (after (map SetDimensions ds) m) = rescales m ++ requested /\
        Forall (fun r => fst r = orig) requested)
  /\
  (forall m displayed d1 d2,
      image (self m) = Some displayed ->
      get_size displayed <> d1 ->
      positive_size d1 ->
      d2 <> d1 ->
      negative_size d2 = false ->
      let source := resize_source (self m) displayed in
      let m2 := after [SetDimensions d1; SetDimensions d2] m in
      image (self m2) = Some (smoothscale source d2) /\
      original_image (self m2) = Some source /\
      rescales m2 = rescales m ++ [(source, d1); (source, d2)]).
Proof.
  split.
  - intros m orig ds. revert m.
    induction ds as [|d ds IH]; intros m O; simpl.
    + split; [assumption|]. exists []. now rewrite app_nil_r.
    + destruct (set_dimensions_from_original d m orig O) as (O1 & r1 & E1 & F1).
      destruct (IH _ O1) as (O2 & r2 & E2 & F2).
      split; [exact O2|]. exists (r1 ++ r2). split.
      * unfold after in E2 |- *. simpl. rewrite E2, E1.
        now rewrite app_assoc.
      * apply Forall_app. auto.
  - intros m displayed d1 d2 I N1 P1 N2 G2 source m2.
    pose proof (positive_not_negative _ P1) as G1.
    subst m2. unfold after; simpl.
    set (m1 := snd (set_dimensions d1 m)).
    assert (H1 : image (self m1) = Some (smoothscale source d1) /\
                 original_image (self m1) = Some source /\
                 rescales m1 = rescales m ++ [(source, d1)]).
    { subst m1. rewrite (set_dimensions_rescales _ _ _ I N1 G1). simpl.
      auto. }
    destruct H1 as (I1 & O1 & R1).
    assert (N : get_size (smoothscale source d1) <> d2)
      by (rewrite (smoothscale_size _ _ P1); congruence).
    assert (S1 : resize_source (self m1) (smoothscale source d1) = source)
      by (unfold resize_source at 1; now rewrite O1).
    rewrite (set_dimensions_rescales _ _ _ I1 N G2). simpl.
    rewrite S1, R1, <- app_assoc. simpl. auto.
Qed.

(** *** Premultiplication *)

Lemma premul_color_within_rounding (c : Color) :
  within_rounding c (premul_color c).
Proof.
  unfold within_rounding, premul_color; cbn [red green blue alpha].
  generalize (red c * alpha c) (green c * alpha c) (blue c * alpha c).
  intros x y z. Z.div_mod_to_equations. lia.
Qed.

Lemma premul_pixels_within_rounding (px : list Color) :
  Forall2 within_rounding px (map premul_color px).
Proof.
  induction px as [|c px IH]; simpl; constructor;
    [apply premul_color_within_rounding | exact IH].
Qed.

Lemma premul_color_premultiplied (c : Color) :
  rgba8_color c = true -> premultiplied_color (premul_color c) = true.
Proof.
  unfold rgba8_color, channel8, premultiplied_color, premul_color; simpl.
  rewrite !andb_true_iff, !Z.leb_le. intros H.
  repeat split; apply Z.div_le_upper_bound; nia.
Qed.

Lemma premul_alpha_surface_premultiplied (s : Surface) :
  rgba8 s = true -> premultiplied (premul_alpha_surface s) = true.
Proof.
  unfold rgba8, premultiplied, premul_alpha_surface; simpl.
  induction (surf_pixels s) as [|c px IH]; simpl; [reflexivity|].
  rewrite !andb_true_iff. intros [Hc Hpx].
  split; [apply premul_color_premultiplied, Hc | apply IH, Hpx].
Qed.

Lemma kept_converted (b : Surface) (flag : bool) (m : Machine) :
  kept (rect (self m)) (converted b flag)
       (self (snd (set_image (Some b) flag m))) = Some (converted b flag).
Proof.
  unfold kept. destruct (differs (converted b flag) (rect (self m))) eqn:D.
  - destruct (negative_size (rect_size (rect (self m)))) eqn:G.
    + now rewrite (set_image_refused _ _ _ D G).
    + now rewrite (set_image_scales _ _ _ D G).
  - now rewrite (set_image_fits _ _ _ D).
Qed.

(** C5: with the flag false, the bitmap [set_image] keeps (as the original
    when it has to be scaled, as the displayed image otherwise) has the size
    of the converted bitmap, and its pixels are, one for one, those of the
    converted bitmap turned from (R,G,B,A) into (R*A/255, G*A/255, B*A/255,
    A) within rounding; with the flag true, the bitmap kept is the
    converted bitmap itself. *)
Theorem C5_premultiplied_unless_flagged (b : Surface) (m : Machine) :
  (exists stored,
      kept (rect (self m)) (converted b false)
           (self (snd (set_image (Some b) false m))) = Some stored /\
      get_size stored = get_size (convert_alpha b) /\
      Forall2 within_rounding
              (surf_pixels (convert_alpha b)) (surf_pixels stored))
  /\
  kept (rect (self m)) (converted b true)
       (self (snd (set_image (Some b) true m))) = Some (convert_alpha b).
Proof.
  split.
  - exists (converted b false). split; [apply kept_converted|].
    unfold converted; simpl. split; [reflexivity|].
    apply premul_pixels_within_rounding.
  - apply (kept_converted b true m).
Qed.

(** *** Construction *)

Lemma init_runs_set_image (r : Rect) (new_image : option Surface) (flag : bool) :
  __init__ r new_image flag =
  set_image new_image flag
            {| self := UIElement_init r; rescales := [] |}.
Proof. reflexivity. Qed.

(** C6 (amended): when construction from a bitmap returns, either the
    converted bitmap has the rectangle's size, it is displayed as it is, no
    original is retained, and a later resize leaves the original unset if
    it is to that same size and captures the displayed bitmap if it is to
    another; or the converted bitmap's size differs from the rectangle's
    and the original is retained by the constructor itself. *)
Theorem C6_original_after_construction
  (r : Rect) (b : Surface) (flag : bool) :
  fst (__init__ r (Some b) flag) = inr tt ->
  (get_size (converted b flag) = rect_size r /\
   original_image (self (snd (__init__ r (Some b) flag))) = None /\
   image (self (snd (__init__ r (Some b) flag))) = Some (converted b flag) /\
   forall d,
     original_image
       (self (snd (set_dimensions d (snd (__init__ r (Some b) flag))))) =
     if size_eqb (get_size (converted b flag)) d then None
     else Some (converted b flag))
  \/
  (get_size (converted b flag) <> rect_size r /\
   original_image (self (snd (__init__ r (Some b) flag))) =
     Some (converted b flag) /\
   image (self (snd (__init__ r (Some b) flag))) =
     Some (smoothscale (converted b flag) (rect_size r))).
Proof.
  rewrite init_runs_set_image.
  set (fresh := {| self := UIElement_init r; rescales := [] |}).
  destruct (set_image_cases (Some b) flag fresh)
    as [(N & _) | [(b' & N & S & E) | [(b' & N & S & _ & E)
                                      | (b' & N & S & _ & E)]]];
    try discriminate N; injection N as <-; rewrite E; simpl; intros R.
  - left. repeat split; [exact S|].
    intros d.
    match goal with
    | |- context [set_dimensions d ?x] => set (built := x)
    end.
    destruct (set_dimensions_cases d built)
      as [(I & _) | [(x & I & T & F) | [(x & I & T & _ & F)
                                       | (x & I & T & _ & F)]]];
      try discriminate I; injection I as <-; rewrite F; simpl.
    + apply size_eqb_eq in T. now rewrite T.
    + apply size_eqb_neq in T. now rewrite T.
    + apply size_eqb_neq in T. now rewrite T.
  - right. auto.
  - discriminate R.
Qed.

(** *** The displayed bitmap follows the rectangle *)

(** Read the attributes of the machine a method equation gives. *)
Ltac observe :=
  unfold displayed_fits, displayed_sized, well_kept;
  cbn [self snd fst rect image original_image _pre_clipped_image
       with_rect with_image with_original_image premultiplied_opt];
  rewrite ?rect_size_with_size.

Lemma converted_premultiplied (b : Surface) (flag : bool) :
  admissible (SetImage (Some b) flag) ->
  premultiplied (converted b flag) = true.
Proof.
  unfold converted. destruct flag; simpl; intros A.
  - exact A.
  - apply premul_alpha_surface_premultiplied, convert_alpha_rgba8.
Qed.

Lemma resize_source_premultiplied (o : UIImage) (shown : Surface) :
  well_kept o -> premultiplied shown = true ->
  premultiplied (resize_source o shown) = true.
Proof.
  intros (_ & P & O) S. unfold resize_source.
  destruct (original_image o); [exact O|].
  destruct (_pre_clipped_image o); [exact P|exact S].
Qed.

Lemma positive_refused (d : Z * Z) :
  positive_size d -> negative_size d = true -> False.
Proof. intros P G. rewrite (positive_not_negative _ P) in G. discriminate. Qed.

(** One call from a machine in the invariant: the invariant holds again,
    and the call returned unless it was [set_image None]. *)
Lemma call_keeps_invariant (c : mutator) (m : Machine) :
  displayed_fits (self m) -> well_kept (self m) -> admissible c ->
  displayed_fits (self (snd (call c m))) /\
  well_kept (self (snd (call c m))) /\
  (fst (call c m) = inr tt \/ exists flag, c = SetImage None flag).
Proof.
  intros (shown & I & E & S) W A.
  destruct c as [[b|] flag|d]; simpl.
  - pose proof (converted_premultiplied b flag A) as C.
    destruct W as (R & P & O).
    destruct (set_image_cases (Some b) flag m)
      as [(N & _) | [(b' & N & Z & F) | [(b' & N & Z & _ & F)
                                        | (b' & N & Z & G & _)]]];
      try discriminate N; try (injection N as <-; rewrite F; observe).
    + split; [|split; [repeat split; auto; apply R|left; reflexivity]].
      eexists; split; [reflexivity|]. split; auto.
    + split; [|split; [repeat split; auto; apply R|left; reflexivity]].
      eexists; split; [reflexivity|]. split; auto.
    + destruct (positive_refused _ R G).
  - split; [exists shown; auto|]. split; [exact W|right; eauto].
  - simpl in A.
    pose proof (resize_source_premultiplied _ _ W S) as Q.
    destruct W as (R & P & O).
    destruct (set_dimensions_cases d m)
      as [(N & _) | [(x & N & T & F) | [(x & N & T & _ & F)
                                       | (x & N & T & G & _)]]];
      try congruence;
      try (rewrite N in I; injection I as ->; rewrite F; observe).
    + split; [exists shown; auto|]. split; [|left; reflexivity].
      repeat split; auto; apply A.
    + split; [|split; [repeat split; auto; apply A|left; reflexivity]].
      eexists; split; [reflexivity|]. split; auto.
    + destruct (positive_refused _ A G).
Qed.

(** The same for the size alone, whatever the flags say. *)
Lemma call_keeps_size (c : mutator) (m : Machine) :
  displayed_sized (self m) ->
  positive_size (rect_size (rect (self m))) ->
  sized c ->
  displayed_sized (self (snd (call c m))) /\
  positive_size (rect_size (rect (self (snd (call c m))))) /\
  (fst (call c m) = inr tt \/ exists flag, c = SetImage None flag).
Proof.
  intros (shown & I & E) R A.
  destruct c as [[b|] flag|d]; simpl.
  - destruct (set_image_cases (Some b) flag m)
      as [(N & _) | [(b' & N & Z & F) | [(b' & N & Z & _ & F)
                                        | (b' & N & Z & G & _)]]];
      try discriminate N; try (injection N as <-; rewrite F; observe).
    + split; [eauto|]. split; [exact R|left; reflexivity].
    + split; [eauto|]. split; [exact R|left; reflexivity].
    + destruct (positive_refused _ R G).
  - split; [exists shown; auto|]. split; [exact R|right; eauto].
  - simpl in A.
    destruct (set_dimensions_cases d m)
      as [(N & _) | [(x & N & T & F) | [(x & N & T & _ & F)
                                       | (x & N & T & G & _)]]];
      try congruence;
      try (rewrite N in I; injection I as ->; rewrite F; observe).
    + split; [exists shown; auto|]. split; [exact A|left; reflexivity].
    + split; [eauto|]. split; [exact A|left; reflexivity].
    + destruct (positive_refused _ A G).
Qed.

(** When [set_image] of a bitmap has returned, a resize to a positive size
    returns and leaves a displayed bitmap of that size. *)
Lemma set_image_then_set_dimensions_size
  (b : Surface) (flag : bool) (d : Z * Z) (m : Machine) :
  fst (set_image (Some b) flag m) = inr tt ->
  positive_size d ->
  fst (set_dimensions d (snd (set_image (Some b) flag m))) = inr tt /\
  exists shown,
    image (self (after [SetImage (Some b) flag; SetDimensions d] m))
      = Some shown /\
    get_size shown = d /\
    rect_size (rect (self (after [SetImage (Some b) flag; SetDimensions d] m)))
      = d.
Proof.
  intros R P. unfold after; simpl.
  set (m1 := snd (set_image (Some b) flag m)).
  assert (I1 : exists shown1, image (self m1) = Some shown1).
  { subst m1.
    destruct (set_image_cases (Some b) flag m)
      as [(N & _) | [(b' & _ & _ & F) | [(b' & _ & _ & _ & F)
                                        | (b' & _ & _ & _ & F)]]];
      try discriminate N; rewrite F in R |- *; simpl; eauto.
    discriminate R. }
  destruct I1 as (shown1 & I1).
  destruct (set_dimensions_cases d m1)
    as [(N & _) | [(x & N & T & F) | [(x & N & T & _ & F)
                                     | (x & N & T & G & _)]]];
    try congruence; try (rewrite F; simpl; rewrite rect_size_with_size).
  - split; [reflexivity|]. exists x. auto.
  - split; [reflexivity|]. eauto.
  - destruct (positive_refused _ P G).
Qed.

(** A constructed element has a displayed bitmap of its rectangle's
    size. *)
Lemma init_establishes_size (r : Rect) (b : Surface) (flag : bool) :
  positive_size (rect_size r) ->
  fst (__init__ r (Some b) flag) = inr tt /\
  displayed_sized (self (snd (__init__ r (Some b) flag))) /\
  rect (self (snd (__init__ r (Some b) flag))) = r.
Proof.
  intros R. rewrite init_runs_set_image.
  set (fresh := {| self := UIElement_init r; rescales := [] |}).
  destruct (set_image_cases (Some b) flag fresh)
    as [(N & _) | [(b' & N & Z & F) | [(b' & N & Z & _ & F)
                                      | (b' & N & Z & G & _)]]];
    try discriminate N; try (injection N as <-; rewrite F; observe).
  - split; [reflexivity|]. split; [eauto|reflexivity].
  - split; [reflexivity|]. split; [eauto|reflexivity].
  - destruct (positive_refused _ R G).
Qed.

(** A constructed element is in the invariant. *)
Lemma init_establishes_invariant (r : Rect) (b : Surface) (flag : bool) :
  positive_size (rect_size r) ->
  admissible (SetImage (Some b) flag) ->
  displayed_fits (self (snd (__init__ r (Some b) flag))) /\
  well_kept (self (snd (__init__ r (Some b) flag))).
Proof.
  intros R A. rewrite init_runs_set_image.
  pose proof (converted_premultiplied b flag A) as C.
  set (fresh := {| self := UIElement_init r; rescales := [] |}).
  destruct (set_image_cases (Some b) flag fresh)
    as [(N & _) | [(b' & N & Z & F) | [(b' & N & Z & _ & F)
                                      | (b' & N & Z & G & _)]]];
    try discriminate N; try (injection N as <-; rewrite F; observe).
  - split; [|repeat split; auto; apply R].
    eexists; split; [reflexivity|]. split; auto.
  - split; [|repeat split; auto; apply R].
    eexists; split; [reflexivity|]. split; auto.
  - destruct (positive_refused _ R G).
Qed.

(** C1 (amended): an element constructed in a rectangle of positive size
    has a displayed bitmap of the rectangle's size, and along any sequence
    of [set_image] calls and [set_dimensions] calls to positive sizes,
    whatever the flags, every call other than [set_image None] returns and
    after every call the displayed bitmap has the rectangle's current
    size.  The displayed bitmap is premultiplied at construction and after
    every call provided every bitmap announced as premultiplied is
    premultiplied: the flag is trusted.  And when [set_image] of a bitmap
    has returned, [set_dimensions] to a positive size [d] returns and
    leaves a displayed bitmap of size [d]. *)
Theorem C1_displayed_bitmap_matches_rectangle :
  (forall r b flag,
      positive_size (rect_size r) ->
      fst (__init__ r (Some b) flag) = inr tt /\
      displayed_sized (self (snd (__init__ r (Some b) flag))) /\
      rect (self (snd (__init__ r (Some b) flag))) = r)
  /\
  (forall cs m,
      displayed_sized (self m) ->
      positive_size (rect_size (rect (self m))) ->
      Forall sized cs ->
      Forall2 (fun c r =>
                 displayed_sized (self (snd r)) /\
                 (fst r = inr tt \/ exists flag, c = SetImage None flag))
              cs (session cs m))
  /\
  (forall r b flag,
      positive_size (rect_size r) ->
      admissible (SetImage (Some b) flag) ->
      displayed_fits (self (snd (__init__ r (Some b) flag))) /\
      well_kept (self (snd (__init__ r (Some b) flag))))
  /\
  (forall cs m,
      displayed_fits (self m) -> well_kept (self m) ->
      Forall admissible cs ->
      Forall2 (fun c r =>
                 displayed_fits (self (snd r)) /\
                 (fst r = inr tt \/ exists flag, c = SetImage None flag))
              cs (session cs m))
  /\
  (forall b flag d m,
      fst (set_image (Some b) flag m) = inr tt ->
      positive_size d ->
      fst (set_dimensions d (snd (set_image (Some b) flag m))) = inr tt /\
      exists shown,
        image (self (after [SetImage (Some b) flag; SetDimensions d] m))
          = Some shown /\
        get_size shown = d /\
        rect_size
          (rect (self (after [SetImage (Some b) flag; SetDimensions d] m)))
          = d).
Proof.
  split; [exact init_establishes_size|]. split; [|split; [|split]].
  - induction cs as [|c cs IH]; intros m F R A; simpl; [constructor|].
    inversion A as [|? ? Ac Acs]; subst.
    destruct (call_keeps_size c m F R Ac) as (F' & R' & O').
    constructor; [split; assumption|].
    apply IH; assumption.
  - exact init_establishes_invariant.
  - induction cs as [|c cs IH]; intros m F W A; simpl; [constructor|].
    inversion A as [|? ? Ac Acs]; subst.
    destruct (call_keeps_invariant c m F W Ac) as (F' & W' & R').
    constructor; [split; assumption|].
    apply IH; assumption.
  - intros b flag d m R P. apply set_image_then_set_dimensions_size; auto.
Qed.

(** *** Further properties of the three methods *)

Lemma after_cons (c : mutator) (cs : list mutator) (m : Machine) :
  after (c :: cs) m = after cs (snd (call c m)).
Proof. reflexivity. Qed.

Lemma last_cons {A : Type} (a d : A) (l : list A) :
  last (a :: l) d = last l a.
Proof.
  revert a d. induction l as [|b l IH]; intros a d; [reflexivity|].
  change (last (a :: b :: l) d) with (last (b :: l) d).
  now rewrite !IH.
Qed.

Lemma with_size_with_size (d1 d2 : Z * Z) (r : Rect) :
  with_size d2 (with_size d1 r) = with_size d2 r.
Proof. reflexivity. Qed.

Lemma with_size_same (r : Rect) : with_size (rect_size r) r = r.
Proof. destruct r; reflexivity. Qed.

Lemma UIImage_ext (a b : UIImage) :
  rect a = rect b -> image a = image b ->
  _pre_clipped_image a = _pre_clipped_image b ->
  original_image a = original_image b -> a = b.
Proof. destruct a, b; simpl; intros; subst; reflexivity. Qed.

Lemma set_dimensions_rect (d : Z * Z) (m : Machine) :
  rect (self (snd (set_dimensions d m))) = with_size d (rect (self m)) /\
  _pre_clipped_image (self (snd (set_dimensions d m))) =
    _pre_clipped_image (self m).
Proof.
  destruct (set_dimensions_cases d m)
    as [(_ & E) | [(x & _ & _ & E) | [(x & _ & _ & _ & E)
                                     | (x & _ & _ & _ & E)]]];
    rewrite E; split; reflexivity.
Qed.

Lemma last_positive (ds : list (Z * Z)) (s : Z * Z) :
  Forall positive_size ds -> positive_size s -> positive_size (last ds s).
Proof.
  revert s. induction ds as [|d ds IH]; intros s F P; [exact P|].
  inversion F as [|? ? Pd Fds]; subst. rewrite last_cons. auto.
Qed.

Lemma resizes_rect (ds : list (Z * Z)) (m : Machine) :
  rect (self (after (map SetDimensions ds) m)) =
    with_size (last ds (rect_size (rect (self m)))) (rect (self m)) /\
  _pre_clipped_image (self (after (map SetDimensions ds) m)) =
    _pre_clipped_image (self m).
Proof.
  revert m. induction ds as [|d ds IH]; intros m.
  - simpl. split; [now rewrite with_size_same | reflexivity].
  - rewrite map_cons, after_cons, last_cons. simpl call.
    destruct (IH (snd (set_dimensions d m))) as (R & P).
    destruct (set_dimensions_rect d m) as (R1 & P1).
    rewrite R, P, R1, P1, rect_size_with_size, with_size_with_size.
    split; reflexivity.
Qed.

(** X1: whatever the element showed before and whatever the flag says, a
    call of either mutator that returns leaves a displayed bitmap of the
    rectangle's size, provided that size is positive. *)
Theorem X1_returning_call_fits_rectangle (c : mutator) (m : Machine) :
  positive_size (rect_size (rect (self (snd (call c m))))) ->
  fst (call c m) = inr tt ->
  exists shown,
    image (self (snd (call c m))) = Some shown /\
    get_size shown = rect_size (rect (self (snd (call c m)))).
Proof.
  destruct c as [new_image flag|d]; simpl call.
  - destruct (set_image_cases new_image flag m)
      as [(_ & E) | [(b & _ & S & E) | [(b & _ & S & _ & E)
                                       | (b & _ & S & _ & E)]]];
      rewrite E; cbn [fst snd self]; intros P R.
    + discriminate R.
    + eexists; split; [reflexivity|exact S].
    + eexists; split; [reflexivity|]. apply smoothscale_size, P.
    + discriminate R.
  - destruct (set_dimensions_cases d m)
      as [(_ & E) | [(x & I & S & E) | [(x & I & S & _ & E)
                                       | (x & I & S & _ & E)]]];
      rewrite E; cbn [fst snd self]; intros P R.
    + discriminate R.
    + exists x. split; [exact I|].
      cbn [with_rect rect]. now rewrite rect_size_with_size.
    + eexists; split; [reflexivity|]. cbn [rect] in *.
      rewrite rect_size_with_size in *. apply smoothscale_size, P.
    + discriminate R.
Qed.


(** One resize of an element that shows its original scaled to a positive
    size: it shows the original scaled to the new size. *)
Lemma set_dimensions_of_scaled
  (d s : Z * Z) (m : Machine) (orig : Surface) :
  original_image (self m) = Some orig ->
  image (self m) = Some (smoothscale orig s) ->
  positive_size s ->
  negative_size d = false ->
  fst (set_dimensions d m) = inr tt /\
  original_image (self (snd (set_dimensions d m))) = Some orig /\
  image (self (snd (set_dimensions d m))) = Some (smoothscale orig d).
Proof.
  intros O I P G.
  destruct (set_dimensions_cases d m)
    as [(N & _) | [(x & I' & S & E) | [(x & I' & S & _ & E)
                                      | (x & I' & S & G' & _)]]].
  - congruence.
  - rewrite E. simpl. split; [reflexivity|]. split; [exact O|].
    rewrite I' in I. injection I as ->.
    rewrite (smoothscale_size _ _ P) in S. now subst d.
  - rewrite E. simpl. unfold resize_source. rewrite O. auto.
  - congruence.
Qed.

Lemma resizes_of_scaled
  (ds : list (Z * Z)) (s : Z * Z) (m : Machine) (orig : Surface) :
  original_image (self m) = Some orig ->
  image (self m) = Some (smoothscale orig s) ->
  positive_size s ->
  Forall positive_size ds ->
  original_image (self (after (map SetDimensions ds) m)) = Some orig /\
  image (self (after (map SetDimensions ds) m))
    = Some (smoothscale orig (last ds s)).
Proof.
  revert s m. induction ds as [|d ds IH]; intros s m O I P F.
  - simpl. auto.
  - inversion F as [|? ? Pd Fds]; subst.
    rewrite map_cons, after_cons, last_cons. simpl call.
    destruct (set_dimensions_of_scaled
                d s m orig O I P (positive_not_negative _ Pd))
      as (_ & O1 & I1).
    apply (IH d _ O1 I1 Pd Fds).
Qed.

(** Resizes of an element that shows an unscaled bitmap, with no original
    and no pre-clipped image: once the size has changed, it shows that
    bitmap scaled to the last size. *)
Lemma resizes_of_unscaled
  (ds : list (Z * Z)) (m : Machine) (shown : Surface) :
  image (self m) = Some shown ->
  original_image (self m) = None ->
  _pre_clipped_image (self m) = None ->
  Forall positive_size ds ->
  last ds (get_size shown) <> get_size shown ->
  original_image (self (after (map SetDimensions ds) m)) = Some shown /\
  image (self (after (map SetDimensions ds) m))
    = Some (smoothscale shown (last ds (get_size shown))).
Proof.
  revert m. induction ds as [|d ds IH]; intros m I O C F L.
  - simpl in L. contradiction.
  - inversion F as [|? ? Pd Fds]; subst.
    rewrite map_cons, after_cons. rewrite last_cons in L |- *. simpl call.
    destruct (set_dimensions_cases d m)
      as [(N & _) | [(x & I' & S & E) | [(x & I' & S & _ & E)
                                        | (x & I' & S & G & _)]]].
    + congruence.
    + rewrite I' in I. injection I as ->. subst d.
      rewrite E. apply IH; simpl; auto.
    + rewrite I' in I. injection I as ->.
      rewrite E. apply resizes_of_scaled; simpl; auto;
        unfold resize_source; rewrite O, C; reflexivity.
    + destruct (positive_refused _ Pd G).
Qed.

(** X2: an element that shows its original scaled to some positive size
    shows, after any sequence of resizes to positive sizes, the original
    scaled to the last size of the sequence: the sizes it went through
    leave no trace in the displayed bitmap. *)
Theorem X2_resizes_show_original_at_last_size
  (ds : list (Z * Z)) (s : Z * Z) (m : Machine) (orig : Surface) :
  original_image (self m) = Some orig ->
  image (self m) = Some (smoothscale orig s) ->
  positive_size s ->
  Forall positive_size ds ->
  image (self (after (map SetDimensions ds) m))
    = Some (smoothscale orig (last ds s)) /\
  original_image (self (after (map SetDimensions ds) m)) = Some orig.
Proof.
  intros O I P F.
  destruct (resizes_of_scaled ds s m orig O I P F). auto.
Qed.

(** X3: an element built from a bitmap and then resized through positive
    sizes has the very attributes (rectangle, displayed bitmap, original)
    of an element built directly with the last size, whenever the
    converted bitmap's own size is not that last size. *)
Theorem X3_resized_element_is_element_built_at_last_size
  (r : Rect) (b : Surface) (flag : bool) (ds : list (Z * Z)) :
  positive_size (rect_size r) ->
  Forall positive_size ds ->
  get_size (converted b flag) <> last ds (rect_size r) ->
  fst (__init__ r (Some b) flag) = inr tt /\
  self (after (map SetDimensions ds) (snd (__init__ r (Some b) flag)))
  = self (snd (__init__ (with_size (last ds (rect_size r)) r)
                        (Some b) flag)).
Proof.
  intros P F N. rewrite !init_runs_set_image.
  set (d := last ds (rect_size r)) in *.
  set (c := converted b flag) in *.
  set (fresh := {| self := UIElement_init r; rescales := [] |}).
  set (fresh' := {| self := UIElement_init (with_size d r); rescales := [] |}).
  assert (D' : differs c (rect (self fresh')) = true).
  { apply differs_true. simpl. now rewrite rect_size_with_size. }
  assert (G' : negative_size (rect_size (rect (self fresh'))) = false).
  { simpl. rewrite rect_size_with_size.
    apply positive_not_negative, last_positive; assumption. }
  rewrite (set_image_scales _ _ _ D' G'). cbn [snd self].
  set (m0 := snd (set_image (Some b) flag fresh)).
  assert (H0 : fst (set_image (Some b) flag fresh) = inr tt /\
               rect (self m0) = r /\ _pre_clipped_image (self m0) = None /\
               original_image (self (after (map SetDimensions ds) m0))
                 = Some c /\
               image (self (after (map SetDimensions ds) m0))
                 = Some (smoothscale c d)).
  { subst m0. destruct (differs c (rect (self fresh))) eqn:D.
    - rewrite (set_image_scales _ _ _ D (positive_not_negative _ P)).
      cbn [fst snd].
      repeat (split; [reflexivity|]).
      apply resizes_of_scaled; auto.
    - rewrite (set_image_fits _ _ _ D). cbn [fst snd].
      repeat (split; [reflexivity|]).
      apply differs_false in D. simpl in D. subst d. rewrite <- D in *.
      apply resizes_of_unscaled; auto. }
  destruct H0 as (R0 & Rc & Pc & O & I).
  split; [exact R0|].
  destruct (resizes_rect ds m0) as (Rr & Rp).
  apply UIImage_ext;
    cbn [rect image _pre_clipped_image original_image
         with_image with_original_image UIElement_init self fresh'].
  - rewrite Rr, Rc. reflexivity.
  - rewrite I. now rewrite rect_size_with_size.
  - now rewrite Rp.
  - exact O.
Qed.



(** One call keeps "no original retained exactly when no rescale has been
    requested". *)
Lemma call_original_iff_rescaled (c : mutator) (m : Machine) :
  (original_image (self m) = None <-> rescales m = []) ->
  (original_image (self (snd (call c m))) = None <->
   rescales (snd (call c m)) = []).
Proof.
  intros H. destruct c as [new_image flag|d]; simpl call.
  - destruct (set_image_cases new_image flag m)
      as [(_ & E) | [(b & _ & _ & E) | [(b & _ & _ & _ & E)
                                       | (b & _ & _ & _ & E)]]];
      rewrite E; simpl; [exact H|exact H| |];
      (split; [discriminate|]);
      intros A; apply app_eq_nil in A; destruct A as [_ A]; discriminate A.
  - destruct (set_dimensions_cases d m)
      as [(_ & E) | [(x & _ & _ & E) | [(x & _ & _ & _ & E)
                                       | (x & _ & _ & _ & E)]]];
      rewrite E; simpl; [exact H|exact H| |];
      (split; [discriminate|]);
      intros A; apply app_eq_nil in A; destruct A as [_ A]; discriminate A.
Qed.

(** X4: from construction on, with any image argument and along any
    sequence of calls, raising ones included, the element retains an
    original exactly when a rescale has been requested from pygame: no
    original is kept for an element that was never scaled, and none is
    missing for one that was. *)
Theorem X4_original_retained_iff_rescaled
  (r : Rect) (image_surface : option Surface) (flag : bool)
  (cs : list mutator) :
  Forall (fun x => original_image (self (snd x)) = None <->
                   rescales (snd x) = [])
         (__init__ r image_surface flag
            :: session cs (snd (__init__ r image_surface flag))).
Proof.
  assert (B : original_image (self (snd (__init__ r image_surface flag)))
              = None <->
              rescales (snd (__init__ r image_surface flag)) = []).
  { rewrite init_runs_set_image.
    apply (call_original_iff_rescaled (SetImage image_surface flag)).
    simpl. split; reflexivity. }
  constructor; [exact B|].
  revert B. generalize (snd (__init__ r image_surface flag)).
  induction cs as [|c cs IH]; intros m B; simpl; constructor.
  - apply call_original_iff_rescaled, B.
  - apply IH, call_original_iff_rescaled, B.
Qed.

(** The outcome of [set_image], by the bitmap and the rectangle. *)
Lemma set_image_outcome (new_image : option Surface) (flag : bool)
      (m : Machine) :
  (fst (set_image new_image flag m) = inl AttributeError <->
   new_image = None) /\
  (fst (set_image new_image flag m) = inl ValueError <->
   new_image <> None /\ negative_size (rect_size (rect (self m))) = true) /\
  (fst (set_image new_image flag m) = inr tt <->
   new_image <> None /\ negative_size (rect_size (rect (self m))) = false).
Proof.
  destruct (set_image_cases new_image flag m)
    as [(N & E) | [(b & N & S & E) | [(b & N & S & G & E)
                                     | (b & N & S & G & E)]]];
    try (pose proof (fits_not_negative _ _ S) as G);
    rewrite E, N; simpl;
    repeat split; try discriminate; try congruence;
    intros (A & B); congruence.
Qed.

(** The outcome of [set_dimensions], by what is displayed and the size. *)
Lemma set_dimensions_outcome (d : Z * Z) (m : Machine) :
  (fst (set_dimensions d m) = inl AttributeError <->
   image (self m) = None) /\
  (fst (set_dimensions d m) = inl ValueError <->
   image (self m) <> None /\ negative_size d = true) /\
  (fst (set_dimensions d m) = inr tt <->
   image (self m) <> None /\ negative_size d = false).
Proof.
  destruct (set_dimensions_cases d m)
    as [(N & E) | [(x & N & S & E) | [(x & N & S & G & E)
                                     | (x & N & S & G & E)]]];
    try (assert (G : negative_size d = false)
          by (rewrite <- S; apply get_size_not_negative));
    rewrite E, N; simpl;
    repeat split; try discriminate; try congruence;
    intros (A & B); congruence.
Qed.

(** X5: which calls raise.  [set_image], and the constructor with it,
    raises [AttributeError] exactly when the bitmap is [None] and
    [ValueError] exactly when there is a bitmap and the rectangle has a
    negative side, and returns otherwise; [set_dimensions] raises
    [AttributeError] exactly when the element displays nothing and
    [ValueError] exactly when it displays something and the new size has a
    negative side, and returns otherwise.  No call raises [TypeError]:
    [smoothscale] is never handed [None]. *)
Theorem X5_which_calls_raise :
  (forall new_image flag m,
      (fst (set_image new_image flag m) = inl AttributeError <->
       new_image = None) /\
      (fst (set_image new_image flag m) = inl ValueError <->
       new_image <> None /\
       negative_size (rect_size (rect (self m))) = true) /\
      (fst (set_image new_image flag m) = inr tt <->
       new_image <> None /\
       negative_size (rect_size (rect (self m))) = false)) /\
  (forall r image_surface flag,
      (fst (__init__ r image_surface flag) = inl AttributeError <->
       image_surface = None) /\
      (fst (__init__ r image_surface flag) = inl ValueError <->
       image_surface <> None /\ negative_size (rect_size r) = true) /\
      (fst (__init__ r image_surface flag) = inr tt <->
       image_surface <> None /\ negative_size (rect_size r) = false)) /\
  (forall d m,
      (fst (set_dimensions d m) = inl AttributeError <->
       image (self m) = None) /\
      (fst (set_dimensions d m) = inl ValueError <->
       image (self m) <> None /\ negative_size d = true) /\
      (fst (set_dimensions d m) = inr tt <->
       image (self m) <> None /\ negative_size d = false)) /\
  (forall c m, fst (call c m) <> inl TypeError).
Proof.
  split; [exact set_image_outcome|]. split; [|split].
  - intros r image_surface flag. rewrite init_runs_set_image.
    apply (set_image_outcome image_surface flag
             {| self := UIElement_init r; rescales := [] |}).
  - exact set_dimensions_outcome.
  - intros [new_image flag|d] m; simpl call.
    + destruct (set_image_cases new_image flag m)
        as [(_ & E) | [(b & _ & _ & E) | [(b & _ & _ & _ & E)
                                         | (b & _ & _ & _ & E)]]];
        rewrite E; discriminate.
    + destruct (set_dimensions_cases d m)
        as [(_ & E) | [(x & _ & _ & E) | [(x & _ & _ & _ & E)
                                         | (x & _ & _ & _ & E)]]];
        rewrite E; discriminate.
Qed.

(** One call on an element with a displayed image. *)
Lemma call_keeps_image (c : mutator) (m : Machine) :
  image (self m) <> None ->
  image (self (snd (call c m))) <> None /\
  (fst (call c m) = inr tt \/
   (fst (call c m) = inl AttributeError /\
    exists flag, c = SetImage None flag) \/
   (fst (call c m) = inl ValueError /\
    negative_size (rect_size (rect (self (snd (call c m))))) = true)).
Proof.
  intros I. destruct c as [new_image flag|d]; simpl call.
  - destruct (set_image_cases new_image flag m)
      as [(N & E) | [(b & _ & _ & E) | [(b & _ & _ & _ & E)
                                       | (b & _ & _ & G & E)]]];
      rewrite E; simpl; (split; [try discriminate; exact I|]); auto.
    right. left. subst new_image. eauto.
  - destruct (set_dimensions_cases d m)
      as [(N & E) | [(x & N & _ & E) | [(x & N & _ & _ & E)
                                       | (x & N & _ & G & E)]]];
      rewrite E; simpl; (split; [try discriminate; exact I|]); auto;
      try contradiction.
Qed.

(** X6: on an element that has a displayed image, along any sequence of
    calls, of any sizes and flags, the element has a displayed image after
    every call, and a call raises only as [set_image None], with
    [AttributeError], or with [ValueError] when the rectangle it is to
    scale to has a negative side. *)
Theorem X6_element_with_image_raises_on_none_or_negative
  (cs : list mutator) (m : Machine) :
  image (self m) <> None ->
  Forall2 (fun c x =>
             image (self (snd x)) <> None /\
             (fst x = inr tt \/
              (fst x = inl AttributeError /\
               exists flag, c = SetImage None flag) \/
              (fst x = inl ValueError /\
               negative_size (rect_size (rect (self (snd x)))) = true)))
          cs (session cs m).
Proof.
  revert m. induction cs as [|c cs IH]; intros m I; simpl; constructor.
  - apply call_keeps_image, I.
  - apply IH. apply (call_keeps_image c m I).
Qed.

(** X7: which bitmap the first resize after a replacement scales.  After
    [set_image] of a bitmap in a rectangle of positive size, on an element
    that has an original or has no pre-clipped image, a resize to another
    size with no negative side shows a rescale of the new bitmap if its
    size differed from the rectangle's; but if the new bitmap fitted, the
    resize scales the original retained earlier, and the new bitmap only
    if there is none. *)
Theorem X7_resize_after_set_image
  (b : Surface) (flag : bool) (d : Z * Z) (m : Machine) :
  positive_size (rect_size (rect (self m))) ->
  d <> rect_size (rect (self m)) ->
  negative_size d = false ->
  original_image (self m) <> None \/ _pre_clipped_image (self m) = None ->
  let c := converted b flag in
  let source :=
    if differs c (rect (self m)) then c
    else match original_image (self m) with
         | Some orig => orig
         | None => c
         end in
  let m2 := after [SetImage (Some b) flag; SetDimensions d] m in
  image (self m2) = Some (smoothscale source d) /\
  original_image (self m2) = Some source /\
  rect_size (rect (self m2)) = d.
Proof.
  intros P N G H c source m2. subst m2 source. unfold after; simpl.
  pose proof (positive_not_negative _ P) as GP.
  set (m1 := snd (set_image (Some b) flag m)).
  destruct (differs c (rect (self m))) eqn:D.
  - assert (H1 : image (self m1)
                 = Some (smoothscale c (rect_size (rect (self m)))) /\
                 original_image (self m1) = Some c).
    { subst m1 c. rewrite (set_image_scales _ _ _ D GP). simpl. auto. }
    destruct H1 as (I1 & O1).
    assert (S1 : get_size (smoothscale c (rect_size (rect (self m)))) <> d)
      by (rewrite (smoothscale_size _ _ P); congruence).
    rewrite (set_dimensions_rescales _ _ _ I1 S1 G). simpl.
    unfold resize_source. rewrite O1, rect_size_with_size. auto.
  - assert (H1 : image (self m1) = Some c /\
                 resize_source (self m1) c = resize_source (self m) c).
    { subst m1 c. rewrite (set_image_fits _ _ _ D). simpl. auto. }
    destruct H1 as (I1 & R1).
    apply differs_false in D.
    assert (S1 : get_size c <> d) by congruence.
    rewrite (set_dimensions_rescales _ _ _ I1 S1 G). simpl.
    rewrite R1, rect_size_with_size.
    assert (R2 : resize_source (self m) c
                 = match original_image (self m) with
                   | Some orig => orig
                   | None => c
                   end).
    { unfold resize_source. destruct (original_image (self m)) as [o|];
        [reflexivity|]. destruct H as [H|H]; [contradiction|].
      now rewrite H. }
    rewrite R2. auto.
Qed.

(** X8: [set_image] is idempotent on the element, and of two replacements
    in a row the displayed bitmap is the one the second alone would give:
    what is displayed after [set_image] depends on the bitmap, the flag and
    the rectangle only. *)
Theorem X8_set_image_idempotent_last_wins :
  (forall new_image flag m,
      self (snd (set_image new_image flag
                           (snd (set_image new_image flag m))))
      = self (snd (set_image new_image flag m))) /\
  (forall b1 flag1 b2 flag2 m,
      image (self (after [SetImage b1 flag1; SetImage (Some b2) flag2] m))
      = image (self (after [SetImage (Some b2) flag2] m))).
Proof.
  assert (R : forall new_image flag m,
             rect (self (snd (set_image new_image flag m))) = rect (self m)).
  { intros new_image flag m.
    destruct (set_image_cases new_image flag m)
      as [(_ & E) | [(b & _ & _ & E) | [(b & _ & _ & _ & E)
                                       | (b & _ & _ & _ & E)]]];
      rewrite E; reflexivity. }
  assert (I : forall b flag m,
             negative_size (rect_size (rect (self m))) = false ->
             image (self (snd (set_image (Some b) flag m)))
             = Some (if differs (converted b flag) (rect (self m))
                     then smoothscale (converted b flag)
                                      (rect_size (rect (self m)))
                     else converted b flag)).
  { intros b flag m G.
    destruct (differs (converted b flag) (rect (self m))) eqn:D.
    - now rewrite (set_image_scales _ _ _ D G).
    - now rewrite (set_image_fits _ _ _ D). }
  assert (K : forall new_image flag m,
             negative_size (rect_size (rect (self m))) = true ->
             image (self (snd (set_image new_image flag m)))
             = image (self m)).
  { intros new_image flag m G.
    destruct (set_image_cases new_image flag m)
      as [(_ & E) | [(b & _ & S & E) | [(b & _ & _ & G' & E)
                                       | (b & _ & _ & _ & E)]]];
      try (rewrite E; reflexivity).
    - rewrite (fits_not_negative _ _ S) in G. discriminate G.
    - congruence. }
  split.
  - intros new_image flag m.
    set (m1 := snd (set_image new_image flag m)).
    pose proof (R new_image flag m) as R1. fold m1 in R1.
    destruct (set_image_cases new_image flag m)
      as [(N & E) | [(b & N & S & E) | [(b & N & S & G & E)
                                       | (b & N & S & G & E)]]];
      subst new_image.
    + reflexivity.
    + assert (D1 : differs (converted b flag) (rect (self m1)) = false)
        by (rewrite R1; apply differs_false, S).
      rewrite (set_image_fits _ _ _ D1). subst m1. rewrite E. reflexivity.
    + assert (D1 : differs (converted b flag) (rect (self m1)) = true)
        by (rewrite R1; apply differs_true, S).
      assert (G1 : negative_size (rect_size (rect (self m1))) = false)
        by now rewrite R1.
      rewrite (set_image_scales _ _ _ D1 G1). rewrite R1. subst m1.
      rewrite E. reflexivity.
    + assert (D1 : differs (converted b flag) (rect (self m1)) = true)
        by (rewrite R1; apply differs_true, S).
      assert (G1 : negative_size (rect_size (rect (self m1))) = true)
        by now rewrite R1.
      rewrite (set_image_refused _ _ _ D1 G1). subst m1.
      rewrite E. reflexivity.
  - intros b1 flag1 b2 flag2 m. unfold after; simpl.
    destruct (negative_size (rect_size (rect (self m)))) eqn:G.
    + rewrite !K; rewrite ?R; auto.
    + rewrite !I; rewrite ?R; auto.
Qed.

(** One call requests at most one rescale and keeps those on record. *)
Lemma call_rescales (c : mutator) (m : Machine) :
  exists requested,
    rescales (snd (call c m)) = rescales m ++ requested /\
    (length requested <= 1)%nat.
Proof.
  destruct c as [new_image flag|d]; simpl call.
  - destruct (set_image_cases new_image flag m)
      as [(_ & E) | [(b & _ & _ & E) | [(b & _ & _ & _ & E)
                                       | (b & _ & _ & _ & E)]]];
      rewrite E; simpl.
    + exists []. rewrite app_nil_r. auto.
    + exists []. rewrite app_nil_r. auto.
    + eexists; split; [reflexivity|]. simpl. lia.
    + eexists; split; [reflexivity|]. simpl. lia.
  - destruct (set_dimensions_cases d m)
      as [(_ & E) | [(x & _ & _ & E) | [(x & _ & _ & _ & E)
                                       | (x & _ & _ & _ & E)]]];
      rewrite E; simpl.
    + exists []. rewrite app_nil_r. auto.
    + exists []. rewrite app_nil_r. auto.
    + eexists; split; [reflexivity|]. simpl. lia.
    + eexists; split; [reflexivity|]. simpl. lia.
Qed.

(** X9: a sequence of calls requests at most one rescale per call, and
    the rescales on record before it stay on record, in order. *)
Theorem X9_at_most_one_rescale_per_call (cs : list mutator) (m : Machine) :
  exists requested,
    rescales (after cs m) = rescales m ++ requested /\
    (length requested <= length cs)%nat.
Proof.
  revert m. induction cs as [|c cs IH]; intros m.
  - exists []. simpl. rewrite app_nil_r. auto.
  - rewrite after_cons.
    destruct (call_rescales c m) as (r1 & E1 & L1).
    destruct (IH (snd (call c m))) as (r2 & E2 & L2).
    exists (r1 ++ r2). rewrite E2, E1, <- app_assoc.
    split; [reflexivity|]. rewrite length_app. simpl. lia.
Qed.

(** X10: for a bitmap whose converted size is neither the rectangle's
    size, positive, nor the new size, which has no negative side,
    replacing the image and then resizing leaves the same element as
    resizing and then replacing the image (even if the resize raised for
    want of a displayed image). *)
Theorem X10_set_image_commutes_with_set_dimensions
  (b : Surface) (flag : bool) (d : Z * Z) (m : Machine) :
  positive_size (rect_size (rect (self m))) ->
  negative_size d = false ->
  get_size (converted b flag) <> rect_size (rect (self m)) ->
  get_size (converted b flag) <> d ->
  self (after [SetImage (Some b) flag; SetDimensions d] m)
  = self (after [SetDimensions d; SetImage (Some b) flag] m).
Proof.
  intros P G N1 N2. unfold after; simpl.
  pose proof (positive_not_negative _ P) as GP.
  set (c := converted b flag) in *.
  set (m1 := snd (set_image (Some b) flag m)).
  set (m1' := snd (set_dimensions d m)).
  assert (H1 : original_image (self m1) = Some c /\
               image (self m1)
                 = Some (smoothscale c (rect_size (rect (self m)))) /\
               rect (self m1) = rect (self m) /\
               _pre_clipped_image (self m1) = _pre_clipped_image (self m)).
  { subst m1 c. apply differs_true in N1.
    rewrite (set_image_scales _ _ _ N1 GP). simpl. auto. }
  destruct H1 as (O1 & I1 & R1 & C1).
  destruct (set_dimensions_of_scaled d _ m1 c O1 I1 P G) as (_ & O2 & I2).
  destruct (set_dimensions_rect d m1) as (R2 & C2).
  destruct (set_dimensions_rect d m) as (R1' & C1'). fold m1' in R1', C1'.
  assert (D' : differs c (rect (self m1')) = true).
  { apply differs_true. now rewrite R1', rect_size_with_size. }
  assert (G' : negative_size (rect_size (rect (self m1'))) = false)
    by now rewrite R1', rect_size_with_size.
  subst c. rewrite (set_image_scales _ _ _ D' G').
  apply UIImage_ext;
    cbn [rect image _pre_clipped_image original_image
         with_image with_original_image self snd].
  - now rewrite R2, R1, R1'.
  - now rewrite I2, R1', rect_size_with_size.
  - now rewrite C2, C1, C1'.
  - exact O2.
Qed.

End Contract.

End UIImage.

(** ** The sample pygame meets what is assumed of pygame *)

Lemma sample_convert_alpha_rgba8 (s : Surface) :
  rgba8 (Sample.convert_alpha s) = true.
Proof.
  unfold rgba8, Sample.convert_alpha; simpl.
  induction (surf_pixels s) as [|c px IH]; simpl; [reflexivity|].
  rewrite IH, andb_true_r.
  unfold rgba8_color, channel8, Sample.clamp_color, Sample.clamp8; simpl.
  rewrite !andb_true_iff, !Z.leb_le. lia.
Qed.

Lemma sample_nearest_scale_size (s : Surface) (d : Z * Z) :
  positive_size d -> get_size (Sample.nearest_scale s d) = d.
Proof.
  destruct d as [w h]. unfold positive_size; simpl. intros [W H].
  unfold get_size, get_width, get_height, Sample.nearest_scale; simpl.
  rewrite !Z2N.id by lia. reflexivity.
Qed.

Lemma sample_get_at_premultiplied (s : Surface) (x y : Z) :
  premultiplied s = true -> premultiplied_color (Sample.get_at s x y) = true.
Proof.
  unfold premultiplied, Sample.get_at. intros H.
  destruct (nth_in_or_default (Z.to_nat (y * get_width s + x))
                              (surf_pixels s) Sample.transparent) as [In | ->].
  - rewrite forallb_forall in H. apply H, In.
  - reflexivity.
Qed.

Lemma sample_nearest_scale_premultiplied (s : Surface) (d : Z * Z) :
  premultiplied s = true -> premultiplied (Sample.nearest_scale s d) = true.
Proof.
  intros H. unfold premultiplied, Sample.nearest_scale; simpl.
  apply forallb_forall. intros c In.
  apply in_flat_map in In. destruct In as (y & _ & In).
  apply in_map_iff in In. destruct In as (x & <- & _).
  apply sample_get_at_premultiplied, H.
Qed.

(** ** The theorems at concrete elements *)

Lemma C1_displayed_bitmap_matches_rectangle_witness :
  (forall s, rgba8 (Sample.convert_alpha s) = true) /\
  (forall s d, positive_size d -> get_size (Sample.nearest_scale s d) = d) /\
  (forall s d, premultiplied s = true ->
               premultiplied (Sample.nearest_scale s d) = true) /\
  (positive_size (rect_size (Sample.at_origin 2 2)) /\
   fst (__init__ Sample.convert_alpha Sample.nearest_scale
                 (Sample.at_origin 2 2)
                 (Some (Sample.solid 4 4 Sample.premul_red)) true) = inr tt /\
   displayed_sized
     (self (snd (__init__ Sample.convert_alpha Sample.nearest_scale
                          (Sample.at_origin 2 2)
                          (Some (Sample.solid 4 4 Sample.premul_red)) true))) /\
   rect (self (snd (__init__ Sample.convert_alpha Sample.nearest_scale
                             (Sample.at_origin 2 2)
                             (Some (Sample.solid 4 4 Sample.premul_red))
                             true)))
     = Sample.at_origin 2 2) /\
  (Forall sized Sample.unchecked_script /\
   Forall2 (fun c r =>
              displayed_sized (self (snd r)) /\
              (fst r = inr tt \/ exists flag, c = SetImage None flag))
           Sample.unchecked_script
           (session Sample.convert_alpha Sample.nearest_scale
                    Sample.unchecked_script
                    (snd (__init__ Sample.convert_alpha Sample.nearest_scale
                                   (Sample.at_origin 2 2)
                                   (Some (Sample.solid 4 4 Sample.premul_red))
                                   true)))) /\
  (admissible Sample.convert_alpha
              (SetImage (Some (Sample.solid 4 4 Sample.premul_red)) true) /\
   displayed_fits
     (self (snd (__init__ Sample.convert_alpha Sample.nearest_scale
                          (Sample.at_origin 2 2)
                          (Some (Sample.solid 4 4 Sample.premul_red)) true))) /\
   well_kept
     (self (snd (__init__ Sample.convert_alpha Sample.nearest_scale
                          (Sample.at_origin 2 2)
                          (Some (Sample.solid 4 4 Sample.premul_red)) true)))) /\
  (Forall (admissible Sample.convert_alpha) Sample.script /\
   Forall2 (fun c r =>
              displayed_fits (self (snd r)) /\
              (fst r = inr tt \/ exists flag, c = SetImage None flag))
           Sample.script
           (session Sample.convert_alpha Sample.nearest_scale
                    Sample.script
                    (snd (__init__ Sample.convert_alpha Sample.nearest_scale
                                   (Sample.at_origin 2 2)
                                   (Some (Sample.solid 4 4 Sample.premul_red))
                                   true)))) /\
  fst (set_image Sample.convert_alpha Sample.nearest_scale
                 (Some (Sample.solid 4 4 Sample.straight_red)) false
                 (Sample.showing 2 2)) = inr tt /\
  positive_size (3, 3) /\
  fst (set_dimensions Sample.nearest_scale (3, 3)
         (snd (set_image Sample.convert_alpha Sample.nearest_scale
                         (Some (Sample.solid 4 4 Sample.straight_red)) false
                         (Sample.showing 2 2)))) = inr tt /\
  exists shown,
    image (self (after Sample.convert_alpha Sample.nearest_scale
                       [SetImage (Some (Sample.solid 4 4 Sample.straight_red))
                                 false;
                        SetDimensions (3, 3)]
                       (Sample.showing 2 2)))
      = Some shown /\
    get_size shown = (3, 3) /\
    rect_size
      (rect (self (after Sample.convert_alpha Sample.nearest_scale
                         [SetImage (Some (Sample.solid 4 4 Sample.straight_red))
                                   false;
                          SetDimensions (3, 3)]
                         (Sample.showing 2 2))))
      = (3, 3).
Proof.
  assert (R : positive_size (rect_size (Sample.at_origin 2 2)))
    by (unfold positive_size; simpl; lia).
  assert (B : admissible Sample.convert_alpha
                (SetImage (Some (Sample.solid 4 4 Sample.premul_red)) true))
    by reflexivity.
  assert (A : Forall (admissible Sample.convert_alpha) Sample.script).
  { unfold Sample.script, positive_size.
    repeat (constructor; simpl; try lia; try reflexivity). }
  assert (Z : Forall sized Sample.unchecked_script).
  { unfold Sample.unchecked_script, positive_size.
    repeat (constructor; simpl; try lia; try reflexivity). }
  assert (P : positive_size (3, 3)) by (unfold positive_size; simpl; lia).
  assert (T : fst (set_image Sample.convert_alpha Sample.nearest_scale
                             (Some (Sample.solid 4 4 Sample.straight_red))
                             false (Sample.showing 2 2)) = inr tt)
    by reflexivity.
  destruct (C1_displayed_bitmap_matches_rectangle
              Sample.convert_alpha Sample.nearest_scale
              sample_convert_alpha_rgba8 sample_nearest_scale_size
              sample_nearest_scale_premultiplied)
    as (Init & Seq & InitF & SeqF & Pair).
  pose proof (Init (Sample.at_origin 2 2)
                   (Sample.solid 4 4 Sample.premul_red) true R)
    as (Ret & S & K).
  pose proof (InitF (Sample.at_origin 2 2)
                    (Sample.solid 4 4 Sample.premul_red) true R B)
    as (F & W).
  assert (R' : positive_size
                 (rect_size
                    (rect (self (snd (__init__
                                        Sample.convert_alpha
                                        Sample.nearest_scale
                                        (Sample.at_origin 2 2)
                                        (Some (Sample.solid
                                                 4 4 Sample.premul_red))
                                        true))))))
    by (rewrite K; exact R).
  split; [exact sample_convert_alpha_rgba8|].
  split; [exact sample_nearest_scale_size|].
  split; [exact sample_nearest_scale_premultiplied|].
  split; [repeat split; assumption|].
  split; [split; [exact Z|exact (Seq Sample.unchecked_script _ S R' Z)]|].
  split; [repeat split; assumption|].
  split; [split; [exact A|exact (SeqF Sample.script _ F W A)]|].
  split; [exact T|]. split; [exact P|].
  exact (Pair (Sample.solid 4 4 Sample.straight_red) false (3, 3)
              (Sample.showing 2 2) T P).
Defined.

(** C1 as first stated does not hold: on an element built from a
    premultiplied 2x2 bitmap in a 2x2 rectangle, a 2x2 bitmap of
    straight-alpha red (255,0,0,128) passed as premultiplied is displayed
    as it is when [set_image] returns; it has the rectangle's size and is
    not premultiplied. *)
Lemma C1_flagged_bitmap_displayed_unpremultiplied :
  fst (__init__ Sample.convert_alpha Sample.nearest_scale
                (Sample.at_origin 2 2)
                (Some (Sample.solid 2 2 Sample.premul_red)) true) = inr tt /\
  fst (set_image Sample.convert_alpha Sample.nearest_scale
                 (Some (Sample.solid 2 2 Sample.straight_red)) true
                 (snd (__init__ Sample.convert_alpha Sample.nearest_scale
                                (Sample.at_origin 2 2)
                                (Some (Sample.solid 2 2 Sample.premul_red))
                                true))) = inr tt /\
  image (self (snd (set_image
                      Sample.convert_alpha Sample.nearest_scale
                      (Some (Sample.solid 2 2 Sample.straight_red)) true
                      (snd (__init__ Sample.convert_alpha Sample.nearest_scale
                                     (Sample.at_origin 2 2)
                                     (Some (Sample.solid 2 2 Sample.premul_red))
                                     true)))))
    = Some (Sample.solid 2 2 Sample.straight_red) /\
  get_size (Sample.solid 2 2 Sample.straight_red)
    = rect_size
        (rect (self (snd (set_image
                            Sample.convert_alpha Sample.nearest_scale
                            (Some (Sample.solid 2 2 Sample.straight_red)) true
                            (snd (__init__
                                    Sample.convert_alpha Sample.nearest_scale
                                    (Sample.at_origin 2 2)
                                    (Some (Sample.solid 2 2 Sample.premul_red))
                                    true)))))) /\
  premultiplied (Sample.solid 2 2 Sample.straight_red) = false /\
  ~ displayed_fits
      (self (snd (set_image
                    Sample.convert_alpha Sample.nearest_scale
                    (Some (Sample.solid 2 2 Sample.straight_red)) true
                    (snd (__init__ Sample.convert_alpha Sample.nearest_scale
                                   (Sample.at_origin 2 2)
                                   (Some (Sample.solid 2 2 Sample.premul_red))
                                   true))))).
Proof.
  split; [reflexivity|]. split; [reflexivity|]. split; [reflexivity|].
  split; [reflexivity|]. split; [reflexivity|].
  intros (shown & I & _ & P). vm_compute in I. injection I as <-.
  vm_compute in P. discriminate P.
Qed.

Lemma C2_set_image_stores_and_scales_witness :
  negative_size (rect_size (rect (self (Sample.showing 2 2)))) = false /\
  exists m',
    set_image Sample.convert_alpha Sample.nearest_scale
              (Some (Sample.solid 4 4 Sample.straight_red)) false
              (Sample.showing 2 2) = (inr tt, m') /\
    rect (self m') = rect (self (Sample.showing 2 2)) /\
    ((get_size (converted Sample.convert_alpha
                          (Sample.solid 4 4 Sample.straight_red) false)
        <> rect_size (rect (self (Sample.showing 2 2))) /\
      original_image (self m')
        = Some (converted Sample.convert_alpha
                          (Sample.solid 4 4 Sample.straight_red) false) /\
      image (self m') =
        Some (Sample.nearest_scale
                (converted Sample.convert_alpha
                           (Sample.solid 4 4 Sample.straight_red) false)
                (rect_size (rect (self (Sample.showing 2 2))))))
     \/
     (get_size (converted Sample.convert_alpha
                          (Sample.solid 4 4 Sample.straight_red) false)
        = rect_size (rect (self (Sample.showing 2 2))) /\
      image (self m')
        = Some (converted Sample.convert_alpha
                          (Sample.solid 4 4 Sample.straight_red) false))).
Proof.
  assert (G : negative_size (rect_size (rect (self (Sample.showing 2 2))))
              = false) by reflexivity.
  split; [exact G|].
  exact (C2_set_image_stores_and_scales
           Sample.convert_alpha Sample.nearest_scale
           (Sample.solid 4 4 Sample.straight_red) false
           (Sample.showing 2 2) G).
Defined.

Lemma C3_set_dimensions_captures_original_witness :
  image (self Sample.clipped) = Some (Sample.solid 2 2 Sample.premul_red) /\
  original_image (self Sample.clipped) = None /\
  get_size (Sample.solid 2 2 Sample.premul_red) <> (1, 1) /\
  negative_size (1, 1) = false /\
  exists m' source,
    set_dimensions Sample.nearest_scale (1, 1) Sample.clipped = (inr tt, m') /\
    source = match _pre_clipped_image (self Sample.clipped) with
             | Some pre => pre
             | None => Sample.solid 2 2 Sample.premul_red
             end /\
    rect_size (rect (self m')) = (1, 1) /\
    original_image (self m') = Some source /\
    image (self m') =
      Some (Sample.nearest_scale source (rect_size (rect (self m')))) /\
    rescales m' = rescales Sample.clipped ++ [(source, (1, 1))].
Proof.
  assert (I : image (self Sample.clipped)
              = Some (Sample.solid 2 2 Sample.premul_red)) by reflexivity.
  assert (O : original_image (self Sample.clipped) = None) by reflexivity.
  assert (N : get_size (Sample.solid 2 2 Sample.premul_red) <> (1, 1))
    by (simpl; discriminate).
  assert (G : negative_size (1, 1) = false) by reflexivity.
  split; [exact I|]. split; [exact O|]. split; [exact N|]. split; [exact G|].
  exact (C3_set_dimensions_captures_original
           Sample.nearest_scale (1, 1) Sample.clipped
           (Sample.solid 2 2 Sample.premul_red) I O N G).
Defined.

Lemma C4_rescale_starts_from_original_witness :
  (forall s d, positive_size d -> get_size (Sample.nearest_scale s d) = d) /\
  (original_image (self (Sample.shrunk 50 50))
     = Some (Sample.solid 100 100 Sample.premul_red) /\
   original_image
     (self (after Sample.convert_alpha Sample.nearest_scale
                  (map SetDimensions [(200, 200); (50, 50); (100, 100)])
                  (Sample.shrunk 50 50)))
     = Some (Sample.solid 100 100 Sample.premul_red) /\
   exists requested,
     rescales (after Sample.convert_alpha Sample.nearest_scale
                     (map SetDimensions [(200, 200); (50, 50); (100, 100)])
                     (Sample.shrunk 50 50))
       = rescales (Sample.shrunk 50 50) ++ requested /\
     Forall (fun r => fst r = Sample.solid 100 100 Sample.premul_red)
            requested) /\
  image (self (Sample.showing 100 100))
    = Some (Sample.solid 100 100 Sample.premul_red) /\
  get_size (Sample.solid 100 100 Sample.premul_red) <> (50, 50) /\
  positive_size (50, 50) /\
  (200, 200) <> (50, 50) /\
  negative_size (200, 200) = false /\
  image (self (after Sample.convert_alpha Sample.nearest_scale
                     [SetDimensions (50, 50); SetDimensions (200, 200)]
                     (Sample.showing 100 100)))
    = Some (Sample.nearest_scale (Sample.solid 100 100 Sample.premul_red)
                                 (200, 200)) /\
  original_image
    (self (after Sample.convert_alpha Sample.nearest_scale
                 [SetDimensions (50, 50); SetDimensions (200, 200)]
                 (Sample.showing 100 100)))
    = Some (Sample.solid 100 100 Sample.premul_red) /\
  rescales (after Sample.convert_alpha Sample.nearest_scale
                  [SetDimensions (50, 50); SetDimensions (200, 200)]
                  (Sample.showing 100 100))
    = rescales (Sample.showing 100 100)
        ++ [(Sample.solid 100 100 Sample.premul_red, (50, 50));
            (Sample.solid 100 100 Sample.premul_red, (200, 200))].
Proof.
  destruct (C4_rescale_starts_from_original
              Sample.convert_alpha Sample.nearest_scale
              sample_nearest_scale_size) as [Seq Pair].
  assert (O : original_image (self (Sample.shrunk 50 50))
              = Some (Sample.solid 100 100 Sample.premul_red))
    by reflexivity.
  assert (I : image (self (Sample.showing 100 100))
              = Some (Sample.solid 100 100 Sample.premul_red))
    by reflexivity.
  assert (N1 : get_size (Sample.solid 100 100 Sample.premul_red) <> (50, 50))
    by (simpl; discriminate).
  assert (P1 : positive_size (50, 50)) by (unfold positive_size; simpl; lia).
  assert (N2 : (200, 200) <> (50, 50)) by discriminate.
  split; [exact sample_nearest_scale_size|].
  split; [split; [exact O|exact (Seq _ _ _ O)]|].
  split; [exact I|]. split; [exact N1|]. split; [exact P1|].
  assert (G2 : negative_size (200, 200) = false) by reflexivity.
  split; [exact N2|]. split; [exact G2|].
  exact (Pair (Sample.showing 100 100)
              (Sample.solid 100 100 Sample.premul_red)
              (50, 50) (200, 200) I N1 P1 N2 G2).
Defined.

Lemma C7_set_dimensions_same_size_is_noop_witness :
  (forall s d, positive_size d -> get_size (Sample.nearest_scale s d) = d) /\
  (image (self (Sample.shrunk 2 2))
     = Some (Sample.nearest_scale (Sample.solid 4 4 Sample.premul_red) (2, 2)) /\
   get_size (Sample.nearest_scale (Sample.solid 4 4 Sample.premul_red) (2, 2))
     = (2, 2) /\
   fst (set_dimensions Sample.nearest_scale (2, 2) (Sample.shrunk 2 2))
     = inr tt /\
   image (self (snd (set_dimensions Sample.nearest_scale (2, 2)
                                    (Sample.shrunk 2 2))))
     = Some (Sample.nearest_scale (Sample.solid 4 4 Sample.premul_red) (2, 2)) /\
   original_image (self (snd (set_dimensions Sample.nearest_scale (2, 2)
                                             (Sample.shrunk 2 2))))
     = original_image (self (Sample.shrunk 2 2)) /\
   rescales (snd (set_dimensions Sample.nearest_scale (2, 2)
                                 (Sample.shrunk 2 2)))
     = rescales (Sample.shrunk 2 2)) /\
  image (self (Sample.showing 2 2)) = Some (Sample.solid 2 2 Sample.premul_red) /\
  positive_size (3, 3) /\
  let once := snd (set_dimensions Sample.nearest_scale (3, 3)
                                  (Sample.showing 2 2)) in
  let twice := snd (set_dimensions Sample.nearest_scale (3, 3) once) in
  fst (set_dimensions Sample.nearest_scale (3, 3) (Sample.showing 2 2))
    = inr tt /\
  fst (set_dimensions Sample.nearest_scale (3, 3) once) = inr tt /\
  image (self twice) = image (self once) /\
  rescales twice = rescales once /\
  (length (rescales twice) <= S (length (rescales (Sample.showing 2 2))))%nat.
Proof.
  destruct (C7_set_dimensions_same_size_is_noop
              Sample.nearest_scale sample_nearest_scale_size) as [Same Twice].
  assert (I : image (self (Sample.shrunk 2 2))
              = Some (Sample.nearest_scale
                        (Sample.solid 4 4 Sample.premul_red) (2, 2)))
    by reflexivity.
  assert (E : get_size (Sample.nearest_scale
                          (Sample.solid 4 4 Sample.premul_red) (2, 2))
              = (2, 2)) by reflexivity.
  assert (J : image (self (Sample.showing 2 2))
              = Some (Sample.solid 2 2 Sample.premul_red)) by reflexivity.
  assert (P : positive_size (3, 3)) by (unfold positive_size; simpl; lia).
  split; [exact sample_nearest_scale_size|].
  split; [split; [exact I|split; [exact E|exact (Same _ _ _ I E)]]|].
  split; [exact J|]. split; [exact P|].
  exact (Twice (3, 3) (Sample.showing 2 2) _ J P).
Defined.

Lemma C8_set_image_same_size_keeps_original_witness :
  get_size (converted Sample.convert_alpha
                      (Sample.solid 2 2 Sample.straight_red) false)
    = rect_size (rect (self (Sample.shrunk 2 2))) /\
  fst (set_image Sample.convert_alpha Sample.nearest_scale
                 (Some (Sample.solid 2 2 Sample.straight_red)) false
                 (Sample.shrunk 2 2)) = inr tt /\
  original_image
    (self (snd (set_image Sample.convert_alpha Sample.nearest_scale
                          (Some (Sample.solid 2 2 Sample.straight_red)) false
                          (Sample.shrunk 2 2))))
    = original_image (self (Sample.shrunk 2 2)) /\
  image
    (self (snd (set_image Sample.convert_alpha Sample.nearest_scale
                          (Some (Sample.solid 2 2 Sample.straight_red)) false
                          (Sample.shrunk 2 2))))
    = Some (converted Sample.convert_alpha
                      (Sample.solid 2 2 Sample.straight_red) false).
Proof.
  assert (E : get_size (converted Sample.convert_alpha
                                  (Sample.solid 2 2 Sample.straight_red) false)
              = rect_size (rect (self (Sample.shrunk 2 2)))) by reflexivity.
  split; [exact E|].
  exact (C8_set_image_same_size_keeps_original
           Sample.convert_alpha Sample.nearest_scale
           (Sample.solid 2 2 Sample.straight_red) false (Sample.shrunk 2 2) E).
Defined.

Lemma C10_original_image_stays_set_witness :
  original_image (self (Sample.shrunk 2 2)) <> None /\
  (forall d,
      original_image (self (snd (set_dimensions Sample.nearest_scale d
                                                (Sample.shrunk 2 2))))
      = original_image (self (Sample.shrunk 2 2))) /\
  (forall new_image flag,
      original_image
        (self (snd (set_image Sample.convert_alpha Sample.nearest_scale
                              new_image flag (Sample.shrunk 2 2))))
      = original_image (self (Sample.shrunk 2 2))
      \/
      exists b, new_image = Some b /\
                get_size (converted Sample.convert_alpha b flag)
                  <> rect_size (rect (self (Sample.shrunk 2 2))) /\
                original_image
                  (self (snd (set_image Sample.convert_alpha Sample.nearest_scale
                                        new_image flag (Sample.shrunk 2 2))))
                = Some (converted Sample.convert_alpha b flag)) /\
  (forall cs,
      Forall (fun r => original_image (self (snd r)) <> None)
             (session Sample.convert_alpha Sample.nearest_scale cs
                      (Sample.shrunk 2 2))).
Proof.
  assert (H : original_image (self (Sample.shrunk 2 2)) <> None)
    by (simpl; discriminate).
  split; [exact H|].
  exact (C10_original_image_stays_set
           Sample.convert_alpha Sample.nearest_scale (Sample.shrunk 2 2) H).
Defined.

Lemma C6_original_after_construction_witness :
  fst (__init__ Sample.convert_alpha Sample.nearest_scale
                (Sample.at_origin 2 2)
                (Some (Sample.solid 2 2 Sample.straight_red)) false)
    = inr tt /\
  ((get_size (converted Sample.convert_alpha
                        (Sample.solid 2 2 Sample.straight_red) false)
      = rect_size (Sample.at_origin 2 2) /\
    original_image
      (self (snd (__init__ Sample.convert_alpha Sample.nearest_scale
                           (Sample.at_origin 2 2)
                           (Some (Sample.solid 2 2 Sample.straight_red))
                           false))) = None /\
    image
      (self (snd (__init__ Sample.convert_alpha Sample.nearest_scale
                           (Sample.at_origin 2 2)
                           (Some (Sample.solid 2 2 Sample.straight_red))
                           false)))
      = Some (converted Sample.convert_alpha
                        (Sample.solid 2 2 Sample.straight_red) false) /\
    forall d,
      original_image
        (self (snd (set_dimensions
                      Sample.nearest_scale d
                      (snd (__init__ Sample.convert_alpha Sample.nearest_scale
                                     (Sample.at_origin 2 2)
                                     (Some (Sample.solid
                                              2 2 Sample.straight_red))
                                     false))))) =
      if size_eqb (get_size (converted Sample.convert_alpha
                                       (Sample.solid 2 2 Sample.straight_red)
                                       false)) d
      then None
      else Some (converted Sample.convert_alpha
                           (Sample.solid 2 2 Sample.straight_red) false))
   \/
   (get_size (converted Sample.convert_alpha
                        (Sample.solid 2 2 Sample.straight_red) false)
      <> rect_size (Sample.at_origin 2 2) /\
    original_image
      (self (snd (__init__ Sample.convert_alpha Sample.nearest_scale
                           (Sample.at_origin 2 2)
                           (Some (Sample.solid 2 2 Sample.straight_red))
                           false)))
      = Some (converted Sample.convert_alpha
                        (Sample.solid 2 2 Sample.straight_red) false) /\
    image
      (self (snd (__init__ Sample.convert_alpha Sample.nearest_scale
                           (Sample.at_origin 2 2)
                           (Some (Sample.solid 2 2 Sample.straight_red))
                           false)))
      = Some (Sample.nearest_scale
                (converted Sample.convert_alpha
                           (Sample.solid 2 2 Sample.straight_red) false)
                (rect_size (Sample.at_origin 2 2))))).
Proof.
  assert (R : fst (__init__ Sample.convert_alpha Sample.nearest_scale
                            (Sample.at_origin 2 2)
                            (Some (Sample.solid 2 2 Sample.straight_red))
                            false) = inr tt) by reflexivity.
  split; [exact R|].
  exact (C6_original_after_construction
           Sample.convert_alpha Sample.nearest_scale
           (Sample.at_origin 2 2) (Sample.solid 2 2 Sample.straight_red)
           false R).
Defined.

(** C6 as first stated does not hold: built from a 2x2 bitmap in a 1x1
    rectangle, the element has retained the converted 2x2 bitmap as its
    original when the constructor returns. *)
Lemma C6_original_retained_at_construction :
  fst (__init__ Sample.convert_alpha Sample.nearest_scale
                (Sample.at_origin 1 1)
                (Some (Sample.solid 2 2 Sample.straight_red)) false)
    = inr tt /\
  original_image
    (self (snd (__init__ Sample.convert_alpha Sample.nearest_scale
                         (Sample.at_origin 1 1)
                         (Some (Sample.solid 2 2 Sample.straight_red)) false)))
    = Some (Sample.solid 2 2 Sample.premul_red) /\
  ~ (forall r b flag,
        original_image
          (self (snd (__init__ Sample.convert_alpha Sample.nearest_scale
                               r (Some b) flag))) = None).
Proof.
  split; [reflexivity|]. split; [reflexivity|].
  intros H.
  specialize (H (Sample.at_origin 1 1)
                (Sample.solid 2 2 Sample.straight_red) false).
  discriminate H.
Qed.

(** ** The model at work *)

Example premul_straight_red :
  premul_color Sample.straight_red = Sample.premul_red.
Proof. reflexivity. Qed.

(** Outcomes of the sample script on an element built from a 4x4 bitmap in
    a 2x2 rectangle, and the displayed size after each call. *)
Example script_outcomes :
  map (fun r => (fst r, option_map get_size (image (self (snd r)))))
      (session Sample.convert_alpha Sample.nearest_scale Sample.script
               (Sample.shrunk 2 2))
  = [ (inr tt, Some (2, 2));
      (inr tt, Some (3, 3));
      (inl AttributeError, Some (3, 3));
      (inr tt, Some (3, 3));
      (inr tt, Some (3, 3)) ].
Proof. vm_compute. reflexivity. Qed.

(** The rescales on record after the script: the one made at
    construction, the new 4x4 bitmap to 2x2, then the same bitmap to 3x3;
    the repeated resize and the fitting bitmap request none. *)
Example script_rescales :
  map (fun r => (get_size (fst r), snd r))
      (rescales (after Sample.convert_alpha Sample.nearest_scale Sample.script
                       (Sample.shrunk 2 2)))
  = [ ((4, 4), (2, 2)); ((4, 4), (2, 2)); ((4, 4), (3, 3)) ].
Proof. vm_compute. reflexivity. Qed.

(** A same-size replacement leaves an earlier original in place: the next
    resize scales the earlier bitmap, not the one on display. *)
Example stale_original_is_rescaled :
  image (self (after Sample.convert_alpha Sample.nearest_scale
                     [SetImage (Some (Sample.solid 2 2 (mkColor 0 0 200 255)))
                               true;
                      SetDimensions (1, 1)]
                     (Sample.shrunk 2 2)))
  = Some (Sample.solid 1 1 Sample.premul_red).
Proof. vm_compute. reflexivity. Qed.

(** Resizing an element that has no displayed bitmap raises after the
    rectangle has been updated. *)
Example set_dimensions_without_image :
  set_dimensions Sample.nearest_scale (5, 7)
                 {| self := UIElement_init (Sample.at_origin 1 1);
                    rescales := [] |}
  = (inl AttributeError,
     {| self := UIElement_init (Sample.at_origin 5 7); rescales := [] |}).
Proof. reflexivity. Qed.

(** A resize to a negative size of an element showing a 2x2 bitmap:
    [smoothscale] refuses with [ValueError]; the rectangle has the new
    size, the displayed bitmap is still the 2x2 one and it has been
    captured as the original. *)
Example set_dimensions_negative_size :
  set_dimensions Sample.nearest_scale (-1, -1) (Sample.showing 2 2)
  = (inl ValueError,
     {| self := {| rect := Sample.at_origin (-1) (-1);
                   image := Some (Sample.solid 2 2 Sample.premul_red);
                   _pre_clipped_image := None;
                   original_image := Some (Sample.solid 2 2 Sample.premul_red) |};
        rescales := [(Sample.solid 2 2 Sample.premul_red, (-1, -1))] |}).
Proof. reflexivity. Qed.

(** Construction in a rectangle with negative sides: [ValueError], and the
    element left behind displays nothing. *)
Example init_negative_rectangle :
  fst (__init__ Sample.convert_alpha Sample.nearest_scale
                (Sample.at_origin (-1) (-1))
                (Some (Sample.solid 2 2 Sample.premul_red)) true)
    = inl ValueError /\
  image (self (snd (__init__ Sample.convert_alpha Sample.nearest_scale
                             (Sample.at_origin (-1) (-1))
                             (Some (Sample.solid 2 2 Sample.premul_red))
                             true))) = None.
Proof. split; reflexivity. Qed.

(** ** The further properties at concrete elements *)

Lemma X1_returning_call_fits_rectangle_witness :
  (forall s d, positive_size d -> get_size (Sample.nearest_scale s d) = d) /\
  positive_size
    (rect_size
       (rect (self (snd (call Sample.convert_alpha Sample.nearest_scale
                              (SetImage
                                 (Some (Sample.solid 4 4 Sample.straight_red))
                                 true)
                              (Sample.showing 2 2)))))) /\
  fst (call Sample.convert_alpha Sample.nearest_scale
            (SetImage (Some (Sample.solid 4 4 Sample.straight_red)) true)
            (Sample.showing 2 2)) = inr tt /\
  exists shown,
    image (self (snd (call Sample.convert_alpha Sample.nearest_scale
                           (SetImage
                              (Some (Sample.solid 4 4 Sample.straight_red))
                              true)
                           (Sample.showing 2 2)))) = Some shown /\
    get_size shown =
      rect_size
        (rect (self (snd (call Sample.convert_alpha Sample.nearest_scale
                               (SetImage
                                  (Some (Sample.solid 4 4 Sample.straight_red))
                                  true)
                               (Sample.showing 2 2))))).
Proof.
  assert (P : positive_size
                (rect_size
                   (rect (self (snd (call Sample.convert_alpha
                                          Sample.nearest_scale
                                          (SetImage
                                             (Some (Sample.solid
                                                      4 4 Sample.straight_red))
                                             true)
                                          (Sample.showing 2 2)))))))
    by (unfold positive_size; simpl; lia).
  assert (R : fst (call Sample.convert_alpha Sample.nearest_scale
                        (SetImage
                           (Some (Sample.solid 4 4 Sample.straight_red)) true)
                        (Sample.showing 2 2)) = inr tt) by reflexivity.
  split; [exact sample_nearest_scale_size|].
  split; [exact P|]. split; [exact R|].
  exact (X1_returning_call_fits_rectangle
           Sample.convert_alpha Sample.nearest_scale sample_nearest_scale_size
           (SetImage (Some (Sample.solid 4 4 Sample.straight_red)) true)
           (Sample.showing 2 2) P R).
Defined.

Lemma X2_resizes_show_original_at_last_size_witness :
  (forall s d, positive_size d -> get_size (Sample.nearest_scale s d) = d) /\
  original_image (self (Sample.shrunk 2 2))
    = Some (Sample.solid 4 4 Sample.premul_red) /\
  image (self (Sample.shrunk 2 2))
    = Some (Sample.nearest_scale (Sample.solid 4 4 Sample.premul_red) (2, 2)) /\
  positive_size (2, 2) /\
  Forall positive_size [(3, 3); (1, 1); (5, 5)] /\
  image (self (after Sample.convert_alpha Sample.nearest_scale
                     (map SetDimensions [(3, 3); (1, 1); (5, 5)])
                     (Sample.shrunk 2 2)))
    = Some (Sample.nearest_scale (Sample.solid 4 4 Sample.premul_red)
                                 (last [(3, 3); (1, 1); (5, 5)] (2, 2))) /\
  original_image (self (after Sample.convert_alpha Sample.nearest_scale
                              (map SetDimensions [(3, 3); (1, 1); (5, 5)])
                              (Sample.shrunk 2 2)))
    = Some (Sample.solid 4 4 Sample.premul_red).
Proof.
  assert (O : original_image (self (Sample.shrunk 2 2))
              = Some (Sample.solid 4 4 Sample.premul_red)) by reflexivity.
  assert (I : image (self (Sample.shrunk 2 2))
              = Some (Sample.nearest_scale
                        (Sample.solid 4 4 Sample.premul_red) (2, 2)))
    by reflexivity.
  assert (P : positive_size (2, 2)) by (unfold positive_size; simpl; lia).
  assert (F : Forall positive_size [(3, 3); (1, 1); (5, 5)])
    by (repeat constructor).
  split; [exact sample_nearest_scale_size|].
  split; [exact O|]. split; [exact I|]. split; [exact P|]. split; [exact F|].
  exact (X2_resizes_show_original_at_last_size
           Sample.convert_alpha Sample.nearest_scale sample_nearest_scale_size
           [(3, 3); (1, 1); (5, 5)] (2, 2) (Sample.shrunk 2 2)
           (Sample.solid 4 4 Sample.premul_red) O I P F).
Defined.

Lemma X3_resized_element_is_element_built_at_last_size_witness :
  (forall s d, positive_size d -> get_size (Sample.nearest_scale s d) = d) /\
  positive_size (rect_size (Sample.at_origin 2 2)) /\
  Forall positive_size [(2, 2); (3, 3)] /\
  get_size (converted Sample.convert_alpha
                      (Sample.solid 2 2 Sample.straight_red) false)
    <> last [(2, 2); (3, 3)] (rect_size (Sample.at_origin 2 2)) /\
  fst (__init__ Sample.convert_alpha Sample.nearest_scale
                (Sample.at_origin 2 2)
                (Some (Sample.solid 2 2 Sample.straight_red)) false)
    = inr tt /\
  self (after Sample.convert_alpha Sample.nearest_scale
              (map SetDimensions [(2, 2); (3, 3)])
              (snd (__init__ Sample.convert_alpha Sample.nearest_scale
                             (Sample.at_origin 2 2)
                             (Some (Sample.solid 2 2 Sample.straight_red))
                             false)))
  = self (snd (__init__ Sample.convert_alpha Sample.nearest_scale
                        (with_size
                           (last [(2, 2); (3, 3)]
                                 (rect_size (Sample.at_origin 2 2)))
                           (Sample.at_origin 2 2))
                        (Some (Sample.solid 2 2 Sample.straight_red)) false)).
Proof.
  assert (P : positive_size (rect_size (Sample.at_origin 2 2)))
    by (unfold positive_size; simpl; lia).
  assert (F : Forall positive_size [(2, 2); (3, 3)]) by (repeat constructor).
  assert (N : get_size (converted Sample.convert_alpha
                                  (Sample.solid 2 2 Sample.straight_red) false)
              <> last [(2, 2); (3, 3)] (rect_size (Sample.at_origin 2 2)))
    by (simpl; discriminate).
  split; [exact sample_nearest_scale_size|].
  split; [exact P|]. split; [exact F|]. split; [exact N|].
  exact (X3_resized_element_is_element_built_at_last_size
           Sample.convert_alpha Sample.nearest_scale sample_nearest_scale_size
           (Sample.at_origin 2 2) (Sample.solid 2 2 Sample.straight_red) false
           [(2, 2); (3, 3)] P F N).
Defined.

Lemma X6_element_with_image_raises_on_none_or_negative_witness :
  image (self (Sample.showing 2 2)) <> None /\
  Forall2 (fun c x =>
             image (self (snd x)) <> None /\
             (fst x = inr tt \/
              (fst x = inl AttributeError /\
               exists flag, c = SetImage None flag) \/
              (fst x = inl ValueError /\
               negative_size (rect_size (rect (self (snd x)))) = true)))
          [SetDimensions (-1, -1); SetImage None true; SetDimensions (3, 3)]
          (session Sample.convert_alpha Sample.nearest_scale
                   [SetDimensions (-1, -1); SetImage None true;
                    SetDimensions (3, 3)]
                   (Sample.showing 2 2)).
Proof.
  assert (I : image (self (Sample.showing 2 2)) <> None)
    by (simpl; discriminate).
  split; [exact I|].
  exact (X6_element_with_image_raises_on_none_or_negative
           Sample.convert_alpha Sample.nearest_scale
           [SetDimensions (-1, -1); SetImage None true; SetDimensions (3, 3)]
           (Sample.showing 2 2) I).
Defined.

Lemma X7_resize_after_set_image_witness :
  (forall s d, positive_size d -> get_size (Sample.nearest_scale s d) = d) /\
  positive_size (rect_size (rect (self (Sample.shrunk 2 2)))) /\
  (1, 1) <> rect_size (rect (self (Sample.shrunk 2 2))) /\
  negative_size (1, 1) = false /\
  (original_image (self (Sample.shrunk 2 2)) <> None \/
   _pre_clipped_image (self (Sample.shrunk 2 2)) = None) /\
  let c := converted Sample.convert_alpha
                     (Sample.solid 2 2 (mkColor 0 0 200 255)) true in
  let source :=
    if differs c (rect (self (Sample.shrunk 2 2))) then c
    else match original_image (self (Sample.shrunk 2 2)) with
         | Some orig => orig
         | None => c
         end in
  let m2 := after Sample.convert_alpha Sample.nearest_scale
                  [SetImage (Some (Sample.solid 2 2 (mkColor 0 0 200 255)))
                            true;
                   SetDimensions (1, 1)]
                  (Sample.shrunk 2 2) in
  image (self m2) = Some (Sample.nearest_scale source (1, 1)) /\
  original_image (self m2) = Some source /\
  rect_size (rect (self m2)) = (1, 1).
Proof.
  assert (P : positive_size (rect_size (rect (self (Sample.shrunk 2 2)))))
    by (unfold positive_size; simpl; lia).
  assert (N : (1, 1) <> rect_size (rect (self (Sample.shrunk 2 2))))
    by (simpl; discriminate).
  assert (G : negative_size (1, 1) = false) by reflexivity.
  assert (H : original_image (self (Sample.shrunk 2 2)) <> None \/
              _pre_clipped_image (self (Sample.shrunk 2 2)) = None)
    by (right; reflexivity).
  split; [exact sample_nearest_scale_size|].
  split; [exact P|]. split; [exact N|]. split; [exact G|]. split; [exact H|].
  exact (X7_resize_after_set_image
           Sample.convert_alpha Sample.nearest_scale sample_nearest_scale_size
           (Sample.solid 2 2 (mkColor 0 0 200 255)) true (1, 1)
           (Sample.shrunk 2 2) P N G H).
Defined.

Lemma X10_set_image_commutes_with_set_dimensions_witness :
  (forall s d, positive_size d -> get_size (Sample.nearest_scale s d) = d) /\
  positive_size (rect_size (rect (self Sample.clipped))) /\
  negative_size (3, 3) = false /\
  get_size (converted Sample.convert_alpha
                      (Sample.solid 4 4 Sample.straight_red) false)
    <> rect_size (rect (self Sample.clipped)) /\
  get_size (converted Sample.convert_alpha
                      (Sample.solid 4 4 Sample.straight_red) false)
    <> (3, 3) /\
  self (after Sample.convert_alpha Sample.nearest_scale
              [SetImage (Some (Sample.solid 4 4 Sample.straight_red)) false;
               SetDimensions (3, 3)]
              Sample.clipped)
  = self (after Sample.convert_alpha Sample.nearest_scale
                [SetDimensions (3, 3);
                 SetImage (Some (Sample.solid 4 4 Sample.straight_red)) false]
                Sample.clipped).
Proof.
  assert (P : positive_size (rect_size (rect (self Sample.clipped))))
    by (unfold positive_size; simpl; lia).
  assert (N1 : get_size (converted Sample.convert_alpha
                                   (Sample.solid 4 4 Sample.straight_red)
                                   false)
               <> rect_size (rect (self Sample.clipped)))
    by (simpl; discriminate).
  assert (N2 : get_size (converted Sample.convert_alpha
                                   (Sample.solid 4 4 Sample.straight_red)
                                   false)
               <> (3, 3))
    by (simpl; discriminate).
  assert (G : negative_size (3, 3) = false) by reflexivity.
  split; [exact sample_nearest_scale_size|].
  split; [exact P|]. split; [exact G|]. split; [exact N1|]. split; [exact N2|].
  exact (X10_set_image_commutes_with_set_dimensions
           Sample.convert_alpha Sample.nearest_scale sample_nearest_scale_size
           (Sample.solid 4 4 Sample.straight_red) false (3, 3)
           Sample.clipped P G N1 N2).
Defined.
